(** * astOS snapshot manager (astpk.py): a shallow embedding

    The orchestration code of [astpk.py] is a blocking, synchronous sequence
    of external-process invocations over a btrfs volume store.  It is
    embedded here as a state-and-exception monad over a [world] that holds
    the volume store, the mount table, the advisory lock on [LOCK_FILE], the
    console and the list of external processes that were spawned.

    Conventions of the embedding:
    - a path is kept structured ([Member k id] for [ROOTFS / f"snapshot-{id}"]
      and its three siblings) instead of being rendered to text; the code
      only ever builds such paths and takes the number after the dash back
      out of them;
    - command lines are lists of words, as the code passes them to
      [subprocess.run];
    - a recursive or looping Python function takes a [fuel] argument; the
      outcome [OutOfFuel] belongs to the model only and stands for a run that
      has not finished within that many calls. *)

From Stdlib Require Import ZArith List String Bool Lia Arith Permutation.
Import ListNotations.
Open Scope string_scope.
Open Scope list_scope.
Open Scope Z_scope.

Set Implicit Arguments.

(** ** Paths, words and command lines *)

(** The four members of a bundle: [ROOTFS], [VAR], [ETC], [BOOT]. *)
Inductive kind : Type := Rootfs | Var | Etc | Boot.

Inductive path : Type :=
| Member (k : kind) (id : Z)        (* SNAP_DIR/<kind>/<prefix>-<id> *)
| Sub (p : path) (name : string)    (* f"{p}/{name}" *)
| Abs (s : string).                 (* any other absolute path *)

Definition kind_eq_dec (a b : kind) : {a = b} + {a <> b}.
Proof. decide equality. Defined.

Definition path_eq_dec (a b : path) : {a = b} + {a <> b}.
Proof.
  decide equality; try apply Z.eq_dec; try apply string_dec; apply kind_eq_dec.
Defined.

(** One element of an argument vector: text, a decimal numeral, or a path
    rendered with [str]. *)
Inductive word : Type :=
| W (s : string)
| I (z : Z)
| P (p : path).

Definition cmdline : Type := list word.

(** ** The volume store *)

Definition uuid : Type := nat.

Record subvol : Type := mkSubvol {
  sv_path : path;
  sv_uuid : uuid;
  sv_parent_uuid : option uuid;
  sv_ro : bool
}.

(** How a spawned process ended: it exited with a status, or it could not be
    started at all ([subprocess.run] then raises [OSError]). *)
Inductive proc_outcome : Type :=
| Exit (code : Z)
| SpawnError.

(** ** Console *)

Inductive message : Type :=
| MsgText (s : string)
| MsgCommandFailed (cmd : cmdline)
| MsgDestExists (dst : path)
| MsgCloned (src dst : Z)
| MsgClonedTree (root new_root : Z)
| MsgBranched (parent new_id : Z)
| MsgDeployed (snap_id : Z)
| MsgTreeRunOn (sid : Z)
| MsgTreeRunFailed (sid : Z)
| MsgStderr (cmd : cmdline).

Inductive line : Type :=
| Echo (cmd : cmdline)                  (* print(f":: ..", file=sys.stderr) *)
| Log (level : string) (m : message)    (* utils.log *)
| Print (m : message).                  (* print(..) *)

(** ** The world *)

Record world : Type := mkWorld {
  subvols : list subvol;          (* the store, in creation order *)
  next_uuid : uuid;               (* the store's supply of fresh identifiers *)
  default_subvol : path;          (* btrfs default subvolume *)
  mounts : list path;             (* mount points, most recent first *)
  lock_holder : option nat;       (* open file description holding LOCK_EX *)
  next_fd : nat;
  console : list line;            (* oldest first *)
  trace : list (cmdline * proc_outcome)  (* processes spawned, oldest first *)
}.

Definition set_subvols (svs : list subvol) (w : world) : world :=
  mkWorld svs (next_uuid w) (default_subvol w) (mounts w) (lock_holder w)
          (next_fd w) (console w) (trace w).
Definition set_next_uuid (u : uuid) (w : world) : world :=
  mkWorld (subvols w) u (default_subvol w) (mounts w) (lock_holder w)
          (next_fd w) (console w) (trace w).
Definition set_default_subvol (p : path) (w : world) : world :=
  mkWorld (subvols w) (next_uuid w) p (mounts w) (lock_holder w)
          (next_fd w) (console w) (trace w).
Definition set_mounts (ms : list path) (w : world) : world :=
  mkWorld (subvols w) (next_uuid w) (default_subvol w) ms (lock_holder w)
          (next_fd w) (console w) (trace w).
Definition set_lock_holder (h : option nat) (w : world) : world :=
  mkWorld (subvols w) (next_uuid w) (default_subvol w) (mounts w) h
          (next_fd w) (console w) (trace w).
Definition set_next_fd (n : nat) (w : world) : world :=
  mkWorld (subvols w) (next_uuid w) (default_subvol w) (mounts w)
          (lock_holder w) n (console w) (trace w).
Definition add_line (l : line) (w : world) : world :=
  mkWorld (subvols w) (next_uuid w) (default_subvol w) (mounts w)
          (lock_holder w) (next_fd w) (console w ++ [l]) (trace w).
Definition add_trace (c : cmdline) (o : proc_outcome) (w : world) : world :=
  mkWorld (subvols w) (next_uuid w) (default_subvol w) (mounts w)
          (lock_holder w) (next_fd w) (console w) (trace w ++ [(c, o)]).

(** ** Python control flow *)

Inductive exn : Type :=
| SystemExit (code : Z)
| KeyboardInterrupt
| TypeError
| ValueError
| IndexError
| LookupError
| OSError
| CalledProcessError.

(** [except Exception] catches everything but the [BaseException]-only
    classes. *)
Definition is_Exception (e : exn) : bool :=
  match e with
  | SystemExit _ | KeyboardInterrupt => false
  | _ => true
  end.

Inductive outcome (A : Type) : Type :=
| Ok (a : A)          (* the statement completed *)
| Raise (e : exn)     (* an exception is propagating *)
| Replaced            (* os.exec* succeeded: this program is gone *)
| Blocked             (* a blocking call that never returns *)
| OutOfFuel.          (* model only *)

Arguments Ok {A} a.
Arguments Raise {A} e.
Arguments Replaced {A}.
Arguments Blocked {A}.
Arguments OutOfFuel {A}.

Definition M (A : Type) : Type := world -> outcome A * world.

Definition ret {A} (a : A) : M A := fun w => (Ok a, w).

Definition bind {A B} (m : M A) (f : A -> M B) : M B :=
  fun w =>
    match m w with
    | (Ok a, w1) => f a w1
    | (Raise e, w1) => (Raise e, w1)
    | (Replaced, w1) => (Replaced, w1)
    | (Blocked, w1) => (Blocked, w1)
    | (OutOfFuel, w1) => (OutOfFuel, w1)
    end.

Declare Scope py_scope.
Delimit Scope py_scope with py.
Notation "x <- c ;; k" := (bind c (fun x => k))
  (at level 61, c at next level, right associativity) : py_scope.
Notation "c ;; k" := (bind c (fun _ => k))
  (at level 61, right associativity) : py_scope.
Open Scope py_scope.

Definition raise {A} (e : exn) : M A := fun w => (Raise e, w).

(** [try: m  except <classes>: h] *)
Definition try_except {A} (m : M A) (catches : exn -> bool) (h : exn -> M A) : M A :=
  fun w =>
    match m w with
    | (Raise e, w1) => if catches e then h e w1 else (Raise e, w1)
    | r => r
    end.

(** [try: m  finally: fin].  The [finally] suite runs when [m] completes or
    raises; it does not run when the process image was replaced or when the
    program never leaves [m]. *)
Definition try_finally {A} (m : M A) (fin : M unit) : M A :=
  fun w =>
    match m w with
    | (Ok a, w1) => (_ <- fin ;; ret a) w1
    | (Raise e, w1) => (_ <- fin ;; raise e) w1
    | r => r
    end.

(** [for x in xs: body x] *)
Fixpoint for_each {A} (xs : list A) (body : A -> M unit) : M unit :=
  match xs with
  | [] => ret tt
  | x :: xs' => body x ;; for_each xs' body
  end.

Definition emit (l : line) : M unit := fun w => (Ok tt, add_line l w).

(** ** Store look-ups *)

Definition has_path (p : path) (sv : subvol) : bool :=
  if path_eq_dec (sv_path sv) p then true else false.

Definition find_subvol (p : path) (svs : list subvol) : option subvol :=
  find (has_path p) svs.

(** [Path.exists()] *)
Definition path_exists (p : path) (w : world) : bool :=
  existsb (has_path p) (subvols w).

Definition remove_path (p : path) (svs : list subvol) : list subvol :=
  filter (fun sv => negb (has_path p sv)) svs.

(** ** External programs *)

(** The leading literal words of a command line, and what follows them. *)
Fixpoint lits (cmd : cmdline) : list string * cmdline :=
  match cmd with
  | W s :: rest => let '(ls, args) := lits rest in (s :: ls, args)
  | _ => ([], cmd)
  end.

Fixpoint lits_eqb (a b : list string) : bool :=
  match a, b with
  | [], [] => true
  | x :: a', y :: b' => String.eqb x y && lits_eqb a' b'
  | _, _ => false
  end.

Fixpoint remove_first_path (p : path) (ps : list path) : list path :=
  match ps with
  | [] => []
  | q :: ps' => if path_eq_dec q p then ps' else q :: remove_first_path p ps'
  end.

Definition mounted (p : path) (w : world) : bool :=
  existsb (fun q => if path_eq_dec q p then true else false) (mounts w).

(** [btrfs subvolume snapshot [-r] src dst]: atomic, fails if [src] is not a
    subvolume or [dst] exists; the clone's lineage identifier is the
    identifier of [src]. *)
Definition snapshot_effect (ro : bool) (src dst : path) (w : world)
  : proc_outcome * world :=
  match find_subvol src (subvols w) with
  | Some s =>
      if path_exists dst w then (Exit 1, w)
      else (Exit 0,
            set_next_uuid (S (next_uuid w))
              (set_subvols
                 (subvols w ++ [mkSubvol dst (next_uuid w) (Some (sv_uuid s)) ro]) w))
  | None => (Exit 1, w)
  end.

(** [btrfs subvolume delete p] *)
Definition delete_effect (p : path) (w : world) : proc_outcome * world :=
  if path_exists p w
  then (Exit 0, set_subvols (remove_path p (subvols w)) w)
  else (Exit 1, w).

(** [btrfs subvolume set-default p /] *)
Definition set_default_effect (p : path) (w : world) : proc_outcome * world :=
  if path_exists p w then (Exit 0, set_default_subvol p w) else (Exit 1, w).

(** [umount p] *)
Definition umount_effect (p : path) (w : world) : proc_outcome * world :=
  if mounted p w
  then (Exit 0, set_mounts (remove_first_path p (mounts w)) w)
  else (Exit 32, w).

(** ** Lineage trees *)

(** A finite tree of snapshot IDs. *)
#[warnings="-register-all"]
Inductive tree : Type :=
| Node (id : Z) (kids : list tree).

Definition root (t : tree) : Z := match t with Node id _ => id end.

Definition kids (t : tree) : list tree := match t with Node _ ks => ks end.

(** The IDs of a tree, parents before children, children left to right. *)
Fixpoint nodes (t : tree) : list Z :=
  match t with
  | Node id ks => id :: List.concat (map nodes ks)
  end.

Fixpoint size (t : tree) : nat :=
  match t with
  | Node _ ks => S (list_sum (map size ks))
  end.

(** Parents before children, the last child's subtree first. *)
Fixpoint last_child_first (t : tree) : list Z :=
  match t with
  | Node id ks => id :: List.concat (rev (map last_child_first ks))
  end.

(** ** Files inside snapshots *)

(** A value of a JSON object: the text [" ".join(ws)], or anything else. *)
Inductive jvalue : Type :=
| JText (ws : list word)
| JOther (n : nat).

(** What a file holds, as [json.loads] sees it. *)
Inductive content : Type :=
| JsonObject (fields : list (string * jvalue))  (* a JSON object, keys in order *)
| JsonOther                                     (* valid JSON of another type *)
| NotJson.                                      (* rejected; the empty file too *)

(** The regular files, by path. *)
Definition disk : Type := list (path * content).

Fixpoint file_read (p : path) (d : disk) : option content :=
  match d with
  | [] => None
  | (q, c) :: d' => if path_eq_dec q p then Some c else file_read p d'
  end.

Fixpoint file_write (p : path) (c : content) (d : disk) : disk :=
  match d with
  | [] => [(p, c)]
  | (q, c') :: d' =>
      if path_eq_dec q p then (q, c) :: d' else (q, c') :: file_write p c d'
  end.

(** [meta.get(k)] *)
Fixpoint dict_get (k : string) (fs : list (string * jvalue)) : option jvalue :=
  match fs with
  | [] => None
  | (k', v) :: fs' => if String.eqb k' k then Some v else dict_get k fs'
  end.

(** [meta[k] = v]: an existing key keeps its place, a new one goes last. *)
Fixpoint dict_set (k : string) (v : jvalue) (fs : list (string * jvalue))
  : list (string * jvalue) :=
  match fs with
  | [] => [(k, v)]
  | (k', v') :: fs' =>
      if String.eqb k' k then (k', v) :: fs' else (k', v') :: dict_set k v fs'
  end.

(** The subvolume a file lies in: [p / name] lies in [p]. *)
Definition holder (p : path) : path :=
  match p with
  | Sub q _ => q
  | _ => p
  end.

(** A file can be created or written when the subvolume that holds it
    exists and is not read-only. *)
Definition writable (p : path) (w : world) : bool :=
  match find_subvol (holder p) (subvols w) with
  | Some sv => negb (sv_ro sv)
  | None => false
  end.

(** ** Stores and programs of the examples *)

(** The four members of bundle [id]; the rootfs member has identifier [u]
    and lineage [parent]. *)
Definition bundle (id : Z) (u : uuid) (parent : option uuid) : list subvol :=
  [ mkSubvol (Member Rootfs id) u parent true;
    mkSubvol (Member Var id) (u + 1)%nat None true;
    mkSubvol (Member Etc id) (u + 2)%nat None true;
    mkSubvol (Member Boot id) (u + 3)%nat None true ].

(** A freshly started process: nothing mounted, the lock free, nothing
    printed or spawned yet. *)
Definition initial (svs : list subvol) (deployed : path) : world :=
  mkWorld svs 1000%nat deployed [] None 3%nat [] [].

(** Every external program succeeds. *)
Definition all_succeed : cmdline -> proc_outcome := fun _ => Exit 0.

(** DeployedID 10 over the bundles 0, 5, 8, 9, 10, 11, 12, 13 and 20. *)
Definition gc_world : world :=
  initial
    (flat_map (fun id => bundle id (10 * Z.to_nat id)%nat None)
              [0; 5; 8; 9; 10; 11; 12; 13; 20])
    (Member Rootfs 10).

(** The IDs that have a member of kind [k], in store order. *)
Definition member_ids (k : kind) (svs : list subvol) : list Z :=
  flat_map (fun sv => match sv_path sv with
                      | Member k' id => if kind_eq_dec k k' then [id] else []
                      | _ => []
                      end) svs.

(** Root 1 with children 2 and 3; 2 has the child 4. *)
Definition tree_world : world :=
  initial
    (bundle 1 10%nat None ++ bundle 2 20%nat (Some 10%nat) ++
     bundle 3 30%nat (Some 10%nat) ++ bundle 4 40%nat (Some 20%nat))
    (Member Rootfs 1).

(** The command fails (exit status 1) in snapshot 3 and succeeds elsewhere. *)
Definition fails_in_3 : cmdline -> proc_outcome :=
  fun cmd =>
    match cmd with
    | W _ :: P (Member Rootfs 3) :: _ => Exit 1
    | _ => Exit 0
    end.

(** The roots in which a command was run, in order. *)
Definition ran_in (w : world) : list word :=
  flat_map (fun e => match fst e with
                     | W _ :: P p :: _ => [P p]
                     | _ => []
                     end) (trace w).

(** The shell that [chroot] starts ends with status [code]; everything else
    succeeds. *)
Definition shell_ends_with (code : Z) : cmdline -> proc_outcome :=
  fun cmd =>
    match cmd with
    | W s :: _ => if String.eqb s "chroot" then Exit code else Exit 0
    | _ => Exit 0
    end.

(** The [chroot] program cannot be started; everything else succeeds. *)
Definition chroot_missing : cmdline -> proc_outcome :=
  fun cmd =>
    match cmd with
    | W s :: _ => if String.eqb s "chroot" then SpawnError else Exit 0
    | _ => Exit 0
    end.

(** The unmounted paths, in the order of the [umount] calls. *)
Definition unmounted (w : world) : list word :=
  flat_map (fun e => match fst e with
                     | [W s; p] => if String.eqb s "umount" then [p] else []
                     | _ => []
                     end) (trace w).

(** The bootloader generator fails; everything else succeeds. *)
Definition generator_fails : cmdline -> proc_outcome :=
  fun cmd =>
    match cmd with
    | W s :: _ => if String.eqb s "grub-mkconfig" then Exit 1 else Exit 0
    | _ => Exit 0
    end.

(** The store with no snapshot at all. *)
Definition empty_world : world := initial [] (Abs "/").

(** Base bundle 0 alone, deployed. *)
Definition base_world : world := initial (bundle 0 10%nat None) (Member Rootfs 0).

(** The lineage of [tree_world] under 1. *)
Definition example_tree : tree := Node 1 [Node 2 [Node 4 []]; Node 3 []].

(** Bundle 1, and a var member of ID 5 that a stopped clone left behind. *)
Definition stray_world : world :=
  initial (bundle 1 10%nat None ++ [mkSubvol (Member Var 5) 50%nat None true])
          (Member Rootfs 1).

(** [/] is a subvolume, beside the bundles 0 and 1; 1 was cloned from 0. *)
Definition live_world : world :=
  initial (mkSubvol (Abs "/") 5%nat None false
             :: bundle 0 10%nat None ++ bundle 1 20%nat (Some 10%nat))
          (Member Rootfs 1).

(** A store whose base is a snapshot of [/] taken without [-r]. *)
Definition fresh_base_world : world :=
  initial (mkSubvol (Abs "/") 5%nat None false
             :: bundle 1 20%nat None
             ++ [mkSubvol (Member Rootfs 0) 50%nat (Some 5%nat) false])
          (Member Rootfs 1).

(** The bind of [/proc] fails with status 32; everything else succeeds. *)
Definition proc_bind_fails : cmdline -> proc_outcome :=
  fun cmd =>
    match cmd with
    | [W _; W _; P (Abs s); P _] => if String.eqb s "/proc" then Exit 32 else Exit 0
    | _ => Exit 0
    end.

(** [pacman] fails; everything else succeeds. *)
Definition pacman_fails : cmdline -> proc_outcome :=
  fun cmd =>
    match cmd with
    | W s :: _ => if String.eqb s "pacman" then Exit 1 else Exit 0
    | _ => Exit 0
    end.

(** The base holds a [meta.json] with one key. *)
Definition example_disk : disk :=
  [ (Sub (Member Rootfs 0) "meta.json",
     JsonObject [("origin", JText [W "install"])]) ].

Section Astpk.

(** How the programs the orchestrator does not own end when they are run:
    [mount], [chroot <root> <cmd>], [grub-mkconfig], [pacman], ... *)
Variable tool : cmdline -> proc_outcome.

Definition mount_effect (cmd : cmdline) (tgt : path) (w : world)
  : proc_outcome * world :=
  match tool cmd with
  | Exit 0 => (Exit 0, set_mounts (tgt :: mounts w) w)
  | o => (o, w)
  end.

(** Running one external program: how it ends, what it prints on its
    standard output, and the world it leaves. *)
Definition external (cmd : cmdline) (w : world)
  : proc_outcome * cmdline * world :=
  let quiet (r : proc_outcome * world) := (fst r, @nil word, snd r) in
  let '(ls, args) := lits cmd in
  if lits_eqb ls ["btrfs"; "subvolume"; "snapshot"; "-r"] then
    match args with
    | [P src; P dst] => quiet (snapshot_effect true src dst w)
    | _ => (Exit 1, [], w)
    end
  else if lits_eqb ls ["btrfs"; "subvolume"; "snapshot"] then
    match args with
    | [P src; P dst] => quiet (snapshot_effect false src dst w)
    | _ => (Exit 1, [], w)
    end
  else if lits_eqb ls ["btrfs"; "subvolume"; "delete"] then
    match args with
    | [P p] => quiet (delete_effect p w)
    | _ => (Exit 1, [], w)
    end
  else if lits_eqb ls ["btrfs"; "subvolume"; "set-default"] then
    match args with
    | [P p; P _] => quiet (set_default_effect p w)
    | _ => (Exit 1, [], w)
    end
  else if lits_eqb ls ["btrfs"; "subvolume"; "get-default"] then
    (Exit 0, [W "ID"; W "path"; P (default_subvol w)], w)
  else if lits_eqb ls ["mount"; "--bind"] then
    match args with
    | [P _; P tgt] => quiet (mount_effect cmd tgt w)
    | _ => (Exit 1, [], w)
    end
  else if lits_eqb (firstn 2 ls) ["mount"; "-t"] then
    match args with
    | [P _; P tgt] => quiet (mount_effect cmd tgt w)
    | _ => (Exit 1, [], w)
    end
  else if lits_eqb ls ["umount"] then
    match args with
    | [P p] => quiet (umount_effect p w)
    | _ => (Exit 1, [], w)
    end
  else (tool cmd, [], w).

(** ** class utils *)

Definition log (level : string) (m : message) : M unit := emit (Log level m).

(** [utils.die]: log, then [sys.exit(code)], which raises [SystemExit]. *)
Definition die {A} (m : message) (code : Z) : M A :=
  log "ERROR" m ;; raise (SystemExit code).

(** [subprocess.run(cmd, check=check, ...)] *)
Definition subprocess_run (cmd : cmdline) (check : bool) : M cmdline :=
  fun w =>
    let '(o, out, w1) := external cmd w in
    let w2 := add_trace cmd o w1 in
    match o with
    | SpawnError => (Raise OSError, w2)
    | Exit c =>
        if check && negb (c =? 0) then (Raise CalledProcessError, w2)
        else (Ok out, w2)
    end.

Definition is_CalledProcessError (e : exn) : bool :=
  match e with CalledProcessError => true | _ => false end.

(** [utils.run(cmd, check=.., capture=..)], the [shell=False] branch (no
    caller passes [shell=True]). *)
Definition run (cmd : cmdline) (check capture : bool) : M (option cmdline) :=
  emit (Echo cmd) ;;
  try_except
    (out <- subprocess_run cmd check ;;
     ret (if capture then Some out else None))
    is_CalledProcessError
    (fun _ =>
       (if capture then log "ERROR" (MsgStderr cmd) else ret tt) ;;
       die (MsgCommandFailed cmd) 1).

(** [open(LOCK_FILE, "w")]: a new open file description. *)
Definition open_lock_file : M nat :=
  fun w => (Ok (next_fd w), set_next_fd (S (next_fd w)) w).

(** [utils.flock]: [fcntl.flock(fd, LOCK_EX)].  The lock belongs to the open
    file description: a second description of the same file waits for the
    first, also inside one process. *)
Definition flock (fd : nat) : M unit :=
  fun w =>
    match lock_holder w with
    | None => (Ok tt, set_lock_holder (Some fd) w)
    | Some h => if Nat.eqb h fd then (Ok tt, w) else (Blocked, w)
    end.

Definition close (fd : nat) : M unit :=
  fun w =>
    match lock_holder w with
    | Some h => if Nat.eqb h fd then (Ok tt, set_lock_holder None w) else (Ok tt, w)
    | None => (Ok tt, w)
    end.

(** What a [with] statement can be handed in this program: a file object, or
    the generator object a call of a generator function returns (its frame
    not yet started). *)
Inductive pyobj : Type :=
| FileObj (fd : nat)
| GeneratorObj (frame : M unit).

(** [with cm: body].  A file object closes itself on the way out; a generator
    object has neither [__enter__] nor [__exit__], and the statement raises
    before [body] starts. *)
Definition with_ {A} (cm : pyobj) (body : M A) : M A :=
  match cm with
  | FileObj fd => try_finally body (close fd)
  | GeneratorObj _ => raise TypeError
  end.

Definition snapshot_path (snap_id : Z) : path := Member Rootfs snap_id.
Definition var_path (snap_id : Z) : path := Member Var snap_id.
Definition etc_path (snap_id : Z) : path := Member Etc snap_id.
Definition boot_path (snap_id : Z) : path := Member Boot snap_id.

(** [[int(p.name.split("-")[1]) for p in ROOTFS.glob("snapshot-*")]] *)
Definition rootfs_ids (svs : list subvol) : list Z :=
  flat_map (fun sv => match sv_path sv with
                      | Member Rootfs id => [id]
                      | _ => []
                      end) svs.

(** [max(ids, default=d)] *)
Definition py_max (ids : list Z) (d : Z) : Z :=
  match ids with
  | [] => d
  | x :: xs => fold_left Z.max xs x
  end.

Definition glob_rootfs : M (list Z) :=
  fun w => (Ok (rootfs_ids (subvols w)), w).

Definition next_snapshot_id : M Z :=
  fd <- open_lock_file ;;
  with_ (FileObj fd)
    (flock fd ;;
     ids <- glob_rootfs ;;
     ret (py_max ids (-1) + 1)).

Definition is_child_of (parent_uuid : uuid) (sv : subvol) : bool :=
  match sv_parent_uuid sv with
  | Some u => Nat.eqb u parent_uuid
  | None => false
  end.

(** The body of the loop of [get_children]: entries whose name has no number
    after the dash are skipped. *)
Definition child_ids (parent_uuid : uuid) (svs : list subvol) : list Z :=
  flat_map (fun sv => if is_child_of parent_uuid sv
                      then match sv_path sv with
                           | Member _ id => [id]
                           | _ => []
                           end
                      else []) svs.

Definition get_children (snap_id : Z) : M (list Z) :=
  fun w =>
    match find_subvol (snapshot_path snap_id) (subvols w) with
    | None => (Raise LookupError, w)
    | Some s => (Ok (child_ids (sv_uuid s) (subvols w)), w)
    end.

(** ** Low-level btrfs helpers *)

Definition btrfs_snapshot (src dst : path) : M unit :=
  ex <- (fun w => (Ok (path_exists dst w), w)) ;;
  (if ex : bool then die (MsgDestExists dst) 1 else ret tt) ;;
  (* dst.parent.mkdir(parents=True, exist_ok=True): directories are not modelled *)
  run [W "btrfs"; W "subvolume"; W "snapshot"; W "-r"; P src; P dst] true false ;;
  ret tt.

(** The generator function [lock]: its frame, and the call, which only
    builds the generator object. *)
Definition lock_frame_to_yield : M nat :=
  fd <- open_lock_file ;;
  flock fd ;;
  ret fd.

Definition lock_frame : M unit :=
  fd <- lock_frame_to_yield ;;
  try_finally (ret tt (* yield *)) (close fd).

Definition lock : M pyobj := ret (GeneratorObj lock_frame).

(** ** class actions *)

Definition word_eq_dec (a b : word) : {a = b} + {a <> b}.
Proof.
  decide equality; try apply Z.eq_dec; try apply string_dec; apply path_eq_dec.
Defined.

(** [int(x)] on a command-line argument. *)
Definition int (x : word) : M Z :=
  match x with
  | I z => ret z
  | _ => raise ValueError
  end.

Definition usage {A} (s : string) : M A := die (MsgText s) 1.

(** The body of the [with lock():] block of [actions.clone]. *)
Definition clone_block (src dst : Z) : M unit :=
  btrfs_snapshot (snapshot_path src) (snapshot_path dst) ;;
  btrfs_snapshot (var_path src) (var_path dst) ;;
  btrfs_snapshot (etc_path src) (etc_path dst) ;;
  btrfs_snapshot (boot_path src) (boot_path dst).

Definition clone (args : list word) : M unit :=
  match args with
  | [a] =>
      src <- int a ;;
      dst <- next_snapshot_id ;;
      cm <- lock ;;
      with_ cm (clone_block src dst) ;;
      emit (Print (MsgCloned src dst))
  | _ => usage "Usage: ast clone <id>"
  end.

Fixpoint _clone_recursive (fuel : nat) (snap_id : Z) (parent_new : option Z)
  : M Z :=
  match fuel with
  | O => fun w => (OutOfFuel, w)
  | S fuel' =>
      new_id <- next_snapshot_id ;;
      btrfs_snapshot (snapshot_path snap_id) (snapshot_path new_id) ;;
      btrfs_snapshot (var_path snap_id) (var_path new_id) ;;
      btrfs_snapshot (etc_path snap_id) (etc_path new_id) ;;
      btrfs_snapshot (boot_path snap_id) (boot_path new_id) ;;
      children <- get_children snap_id ;;
      for_each children
        (fun child => _clone_recursive fuel' child (Some new_id) ;; ret tt) ;;
      ret new_id
  end.

Definition clone_tree (fuel : nat) (args : list word) : M unit :=
  match args with
  | [a] =>
      root_id <- int a ;;
      cm <- lock ;;
      new_root <- with_ cm (_clone_recursive fuel root_id None) ;;
      emit (Print (MsgClonedTree root_id new_root))
  | _ => usage "Usage: ast clone-tree <id>"
  end.

Definition branch (args : list word) : M unit :=
  match args with
  | [a] =>
      parent <- int a ;;
      new_id <- next_snapshot_id ;;
      clone [I parent] ;;
      emit (Print (MsgBranched parent new_id))
  | _ => usage "Usage: ast branch <id>"
  end.

Definition ubranch (args : list word) : M unit :=
  match args with
  | [_; b] => clone [b]
  | _ => usage "Usage: ast ubranch <parent> <id>"
  end.

Definition set_default_cmd (snap_id : Z) : cmdline :=
  [W "btrfs"; W "subvolume"; W "set-default"; P (snapshot_path snap_id); P (Abs "/")].

Definition grub_mkconfig_cmd : cmdline :=
  [W "grub-mkconfig"; W "-o"; P (Abs "/boot/grub/grub.cfg")].

(** The body of the [with lock():] block of [actions.deploy]. *)
Definition deploy_block (snap_id : Z) : M unit :=
  run (set_default_cmd snap_id) true false ;;
  run grub_mkconfig_cmd true false ;;
  ret tt.

Definition deploy (args : list word) : M unit :=
  match args with
  | [a] =>
      snap_id <- int a ;;
      cm <- lock ;;
      with_ cm (deploy_block snap_id) ;;
      emit (Print (MsgDeployed snap_id))
  | _ => usage "Usage: ast deploy <id>"
  end.

(** [os.chdir] *)
Definition chdir (p : path) : M unit :=
  fun w => if path_exists p w then (Ok tt, w) else (Raise OSError, w).

(** [os.execvp]: when the program is found the process image is replaced and
    no statement of the caller runs any more, whatever the new program does
    and however it ends. *)
Definition execvp (cmd : cmdline) : M unit :=
  fun w =>
    match tool cmd with
    | SpawnError => (Raise OSError, w)
    | Exit c => (Replaced, add_trace cmd (Exit c) w)
    end.

(** The [mounts] list of [actions.chroot]; a tuple is the list of its
    components. *)
Definition chroot_mounts (root : path) : list cmdline :=
  [ [P (Abs "/var"); P (Sub root "var")];
    [P (Abs "/etc"); P (Sub root "etc")];
    [P (Abs "/proc"); P (Sub root "proc"); W "-t"; W "proc"];
    [P (Abs "/dev"); P (Sub root "dev")] ].

Definition item (m : cmdline) (i : nat) : word := nth i m (W "").

Definition is_typed_mount (m : cmdline) : bool :=
  Nat.eqb (List.length m) 5 && (if word_eq_dec (item m 2) (W "-t") then true else false).

Definition chroot (args : list word) : M unit :=
  match args with
  | [a] =>
      snap_id <- int a ;;
      let root := snapshot_path snap_id in
      let mounts := chroot_mounts root in
      for_each mounts
        (fun m =>
           (if is_typed_mount m
            then run [W "mount"; W "-t"; item m 4; item m 0; item m 1] true false
            else run [W "mount"; W "--bind"; item m 0; item m 1] true false) ;;
           ret tt) ;;
      run [W "mount"; W "--make-rslave"; P (Sub root "sys")] true false ;;
      try_finally
        (chdir root ;;
         execvp [W "chroot"; P root; W "/bin/bash"])
        (for_each (rev mounts)
           (fun m =>
              (if is_typed_mount m
               then run [W "umount"; item m 1] false false
               else run [W "umount"; item m 1] false false) ;;
              ret tt) ;;
         run [W "umount"; P (Sub root "sys")] false false ;;
         ret tt)
  | _ => usage "Usage: ast chroot <id>"
  end.

(** [stack.pop()] takes the last element. *)
Fixpoint walk_loop (fuel : nat) (stack visited : list Z) : M (list Z) :=
  match fuel with
  | O => fun w => (OutOfFuel, w)
  | S fuel' =>
      match rev stack with
      | [] => ret visited
      | cur :: below =>
          children <- get_children cur ;;
          walk_loop fuel' (rev below ++ children) (visited ++ [cur])
      end
  end.

Definition _walk_tree (fuel : nat) (root_id : Z) : M (list Z) :=
  walk_loop fuel [root_id] [].

(** [list.remove(x)]: the first occurrence goes. *)
Fixpoint remove_first (x : word) (l : list word) : list word :=
  match l with
  | [] => []
  | y :: l' => if word_eq_dec y x then l' else y :: remove_first x l'
  end.

Definition contains (x : word) (l : list word) : bool :=
  existsb (fun y => if word_eq_dec y x then true else false) l.

(** The loop of [actions.tree_run] over the walked IDs. *)
Definition tree_run_loop (fail_fast : bool) (cmd : cmdline) (ids : list Z)
  : M unit :=
  for_each ids
    (fun sid =>
       emit (Print (MsgTreeRunOn sid)) ;;
       let root := snapshot_path sid in
       try_except
         (run ([W "chroot"; P root] ++ cmd) true false ;; ret tt)
         is_Exception
         (fun _ =>
            if fail_fast
            then die (MsgText "tree-run failed (fail-fast enabled)") 1
            else emit (Print (MsgTreeRunFailed sid)))).

Definition tree_run (fuel : nat) (args : list word) : M unit :=
  if (List.length args <? 2)%nat
  then usage "Usage: ast tree-run <id> <cmd...> [--fail-fast]"
  else
    root_id <- int (item args 0) ;;
    let fail_fast := contains (W "--fail-fast") args in
    let args := if fail_fast then remove_first (W "--fail-fast") args else args in
    let cmd := tl args in
    ids <- _walk_tree fuel root_id ;;
    tree_run_loop fail_fast cmd ids.

Definition base_update_block : M unit :=
  run [W "pacman"; W "-Syu"; W "--noconfirm"] true false ;;
  let base := snapshot_path 0 in
  ex <- (fun w => (Ok (path_exists base w), w)) ;;
  (if ex : bool
   then run [W "btrfs"; W "subvolume"; W "delete"; P base] true false ;; ret tt
   else ret tt) ;;
  run [W "btrfs"; W "subvolume"; W "snapshot"; P (Abs "/"); P base] true false ;;
  ret tt.

Definition base_update : M unit :=
  cm <- lock ;;
  with_ cm base_update_block ;;
  emit (Print (MsgText "Base updated")).

(** [sorted(..)] *)
Fixpoint insert_sorted (x : Z) (l : list Z) : list Z :=
  match l with
  | [] => [x]
  | y :: l' => if x <=? y then x :: l else y :: insert_sorted x l'
  end.

Definition sorted (l : list Z) : list Z := fold_right insert_sorted [] l.

(** [range(a, b)] *)
Definition py_range (a b : Z) : list Z :=
  map (fun i => a + Z.of_nat i) (seq 0 (Z.to_nat (b - a))).

Definition mem (x : Z) (s : list Z) : bool := existsb (Z.eqb x) s.

(** [int(out.strip().split("-")[-1])] on what [get-default] printed: the
    number after the last dash of the path. *)
Definition trailing_id (out : option cmdline) : M Z :=
  match out with
  | Some ws =>
      match last ws (W "") with
      | P (Member _ id) => ret id
      | _ => raise ValueError
      end
  | None => raise TypeError
  end.

Definition delete_cmd (p : path) : cmdline :=
  [W "btrfs"; W "subvolume"; W "delete"; P p].

(** [p.name != "snapshot-0"]: the name is compared as text, which for the
    names the orchestrator writes is the test [id != 0]. *)
Definition gc_candidates (svs : list subvol) : list Z :=
  sorted (filter (fun id => negb (id =? 0)) (rootfs_ids svs)).

(** The body of the [with lock():] block of [actions.gc]. *)
Definition gc_block : M unit :=
  out <- run [W "btrfs"; W "subvolume"; W "get-default"; P (Abs "/")] true true ;;
  deployed <- trailing_id out ;;
  all_ids <- (fun w => (Ok (gc_candidates (subvols w)), w)) ;;
  let keep := py_range (deployed - 2) (deployed + 3) ++ [deployed] in
  for_each all_ids
    (fun sid =>
       if negb (mem sid keep)
       then
         run (delete_cmd (snapshot_path sid)) false false ;;
         run (delete_cmd (var_path sid)) false false ;;
         run (delete_cmd (etc_path sid)) false false ;;
         run (delete_cmd (boot_path sid)) false false ;;
         ret tt
       else ret tt).

Definition gc : M unit :=
  cm <- lock ;;
  with_ cm gc_block ;;
  emit (Print (MsgText "GC completed")).

(** ** The remaining actions *)

Definition require_root (euid : Z) : M unit :=
  if negb (euid =? 0)
  then die (MsgText "This command must be run as root") 1
  else ret tt.

Definition show_help : M unit := emit (Print (MsgText "ast help")).

Definition run_in_snapshot (args : list word) : M unit :=
  if (List.length args <? 2)%nat
  then usage "Usage: ast run <id> <cmd...>"
  else
    snap_id <- int (item args 0) ;;
    let cmd := tl args in
    let root := snapshot_path snap_id in
    run ([W "chroot"; P root] ++ cmd) true false ;;
    ret tt.

Definition pkg_install (args : list word) : M unit :=
  if (List.length args <? 2)%nat
  then usage "Usage: ast install <id> <pkg...>"
  else
    snap_id <- int (item args 0) ;;
    let pkgs := tl args in
    let root := snapshot_path snap_id in
    run ([W "chroot"; P root; W "pacman"; W "-S"; W "--noconfirm"] ++ pkgs)
        true false ;;
    ret tt.

Definition pkg_remove (args : list word) : M unit :=
  if (List.length args <? 2)%nat
  then usage "Usage: ast remove <id> <pkg...>"
  else
    snap_id <- int (item args 0) ;;
    let pkgs := tl args in
    let root := snapshot_path snap_id in
    run ([W "chroot"; P root; W "pacman"; W "-Rsn"; W "--noconfirm"] ++ pkgs)
        true false ;;
    ret tt.

Definition upgrade (args : list word) : M unit :=
  match args with
  | [a] =>
      snap_id <- int a ;;
      let root := snapshot_path snap_id in
      run [W "chroot"; P root; W "pacman"; W "-Syu"; W "--noconfirm"] true false ;;
      ret tt
  | _ => usage "Usage: ast upgrade <id>"
  end.

Definition sync_tree (args : list word) : M unit :=
  die (MsgText "TODO: sync") 1.

(** The pattern is one word of a list: no shell expands it. *)
Definition clean_tmp : M unit :=
  run [W "rm"; W "-rf"; W "/tmp/ast-*"] true false ;; ret tt.

Definition snapshot_df : M unit :=
  run [W "btrfs"; W "filesystem"; W "df"; P (Abs "/")] true false ;; ret tt.

(** [os.execv(sys.executable, [sys.executable, "/usr/share/ast/update.py"])] *)
Definition update_ast (args : list word) : M unit :=
  execvp [W "sys.executable"; W "/usr/share/ast/update.py"].

(** *** Actions on files: a run takes the files and leaves the files *)

Definition action : Type := disk -> world -> (outcome unit * world) * disk.

(** An action that touches no file. *)
Definition no_files (m : M unit) : action := fun d w => (m w, d).

(** [utils.read_json]: [{}] for a missing file. *)
Definition read_json (p : path) (d : disk) : M content :=
  match file_read p d with
  | None => ret (JsonObject [])
  | Some NotJson => raise ValueError
  | Some c => ret c
  end.

(** [meta[k] = v] on what [json.loads] returned. *)
Definition setitem (meta : content) (k : string) (v : jvalue) : M content :=
  match meta with
  | JsonObject fs => ret (JsonObject (dict_set k v fs))
  | _ => raise TypeError
  end.

(** [utils.write_json]: [path.write_text(json.dumps(data, indent=2))] *)
Definition write_json (p : path) (data : content) : action :=
  fun d w =>
    if writable p w then ((Ok tt, w), file_write p data d)
    else ((Raise OSError, w), d).

Definition set_desc (args : list word) : action :=
  fun d w =>
    if (List.length args <? 2)%nat
    then no_files (usage "Usage: ast desc <id> <text...>") d w
    else
      let file := fun snap_id => Sub (snapshot_path snap_id) "meta.json" in
      match (snap_id <- int (item args 0) ;;
             let text := JText (tl args) in
             meta <- read_json (file snap_id) d ;;
             meta' <- setitem meta "desc" text ;;
             ret (snap_id, meta')) w with
      | (Ok (snap_id, meta'), w1) => write_json (file snap_id) meta' d w1
      | (Raise e, w1) => ((Raise e, w1), d)
      | (Replaced, w1) => ((Replaced, w1), d)
      | (Blocked, w1) => ((Blocked, w1), d)
      | (OutOfFuel, w1) => ((OutOfFuel, w1), d)
      end.

(** [Path.touch(exist_ok=True)]: an existing file keeps what it holds, a
    missing one is created empty. *)
Definition touch (p : path) : action :=
  fun d w =>
    if writable p w
    then ((Ok tt, w),
          match file_read p d with
          | Some _ => d
          | None => file_write p NotJson d
          end)
    else ((Raise OSError, w), d).

(** [editor] is [os.getenv("EDITOR", "nano")]. *)
Definition edit_conf (editor : string) (args : list word) : action :=
  fun d w =>
    match args with
    | [a] =>
        match int a w with
        | (Ok snap_id, w1) =>
            let conf := Sub (snapshot_path snap_id) "ast.conf" in
            match touch conf d w1 with
            | ((Ok _, w2), d2) => (execvp [W editor; P conf] w2, d2)
            | r => r
            end
        | (Raise e, w1) => ((Raise e, w1), d)
        | (Replaced, w1) => ((Replaced, w1), d)
        | (Blocked, w1) => ((Blocked, w1), d)
        | (OutOfFuel, w1) => ((OutOfFuel, w1), d)
        end
    | _ => no_files (usage "Usage: ast edit-conf <id>") d w
    end.

(** ** main-cli.py *)

Definition print_usage : M unit :=
  emit (Print (MsgText "ast <command> [args...]")) ;;
  emit (Print (MsgText "Run `ast help` for the full cheat sheet")) ;;
  raise (SystemExit 1).

(** The text of [str(e)] is not kept. *)
Definition fatal (e : exn) : message := MsgText "Fatal".

(** The [router] dictionary: the action bound to a command name, if any. *)
Definition router (fuel : nat) (editor : string) (cmd : string)
    (args : list word) : option action :=
  if String.eqb cmd "help" then Some (no_files show_help)
  else if String.eqb cmd "clone" then Some (no_files (clone args))
  else if String.eqb cmd "clone-tree" then Some (no_files (clone_tree fuel args))
  else if String.eqb cmd "branch" then Some (no_files (branch args))
  else if String.eqb cmd "ubranch" then Some (no_files (ubranch args))
  else if String.eqb cmd "deploy" then Some (no_files (deploy args))
  else if String.eqb cmd "chroot" then Some (no_files (chroot args))
  else if String.eqb cmd "run" then Some (no_files (run_in_snapshot args))
  else if String.eqb cmd "tree-run" then Some (no_files (tree_run fuel args))
  else if String.eqb cmd "install" then Some (no_files (pkg_install args))
  else if String.eqb cmd "remove" then Some (no_files (pkg_remove args))
  else if String.eqb cmd "upgrade" then Some (no_files (upgrade args))
  else if String.eqb cmd "sync" then Some (no_files (sync_tree args))
  else if String.eqb cmd "desc" then Some (set_desc args)
  else if String.eqb cmd "base-update" then Some (no_files base_update)
  else if String.eqb cmd "tmp" then Some (no_files clean_tmp)
  else if String.eqb cmd "df" then Some (no_files snapshot_df)
  else if String.eqb cmd "gc" then Some (no_files gc)
  else if String.eqb cmd "edit-conf" then Some (edit_conf editor args)
  else if String.eqb cmd "update-ast" then Some (no_files (update_ast args))
  else None.

(** The [try] statement around the routed call. *)
Definition guarded (a : action) : action :=
  fun d w =>
    match a d w with
    | ((Raise KeyboardInterrupt, w1), d1) =>
        (die (MsgText "Interrupted by user") 130 w1, d1)
    | ((Raise e, w1), d1) =>
        if is_Exception e then (die (fatal e) 1 w1, d1)
        else ((Raise e, w1), d1)
    | r => r
    end.

(** [main()]: [cmd] is [sys.argv[1]], absent when the command line ends
    after the program name, and [args] is [sys.argv[2:]]; [euid] is what
    [os.geteuid()] returns. *)
Definition main (fuel : nat) (euid : Z) (editor : string)
    (cmd : option string) (args : list word) : action :=
  fun d w =>
    match cmd with
    | None => no_files print_usage d w
    | Some cmd =>
        match require_root euid w with
        | (Ok _, w1) =>
            match router fuel editor cmd args with
            | None =>
                no_files
                  (die (MsgText (String.append "Unknown command: " cmd)) 1) d w1
            | Some a => guarded a d w1
            end
        | (Raise e, w1) => ((Raise e, w1), d)
        | (Replaced, w1) => ((Replaced, w1), d)
        | (Blocked, w1) => ((Blocked, w1), d)
        | (OutOfFuel, w1) => ((OutOfFuel, w1), d)
        end
    end.

(** ** Notions used in the statements *)

(** Some subvolume of the store has the path [p]. *)
Definition exists_in (svs : list subvol) (p : path) : bool :=
  existsb (has_path p) svs.

(** The command line of [btrfs_snapshot]. *)
Definition snapshot_cmd (src dst : path) : cmdline :=
  [W "btrfs"; W "subvolume"; W "snapshot"; W "-r"; P src; P dst].

(** A relation between the world before and the world after a statement
    that is reflexive and transitive and does not look at the console, the
    process trace, the file descriptors or the lock. *)
Record frame_rel (R : world -> world -> Prop) : Prop := {
  fr_refl : forall w, R w w;
  fr_trans : forall a b c, R a b -> R b c -> R a c;
  fr_line : forall l w, R w (add_line l w);
  fr_trace : forall c o w, R w (add_trace c o w);
  fr_fd : forall n w, R w (set_next_fd n w);
  fr_lock : forall h w, R w (set_lock_holder h w)
}.

(** Every run of [m] relates the world it starts in to the one it leaves. *)
Definition keeps (R : world -> world -> Prop) {A} (m : M A) : Prop :=
  forall w, R w (snd (m w)).

(** Nothing outside the console and the file-descriptor counter differs. *)
Definition untouched (w w' : world) : Prop :=
  subvols w' = subvols w /\ next_uuid w' = next_uuid w /\
  default_subvol w' = default_subvol w /\ mounts w' = mounts w /\
  lock_holder w' = lock_holder w /\ trace w' = trace w.

(** The store of [w'] is the store of [w] followed by read-only members. *)
Definition grows_ro (w w' : world) : Prop :=
  exists added,
    subvols w' = subvols w ++ added /\
    Forall (fun sv => sv_ro sv = true) added.

(** All four members of the bundle [id] exist. *)
Definition bundle_exists (id : Z) (w : world) : bool :=
  path_exists (snapshot_path id) w && path_exists (var_path id) w &&
  path_exists (etc_path id) w && path_exists (boot_path id) w.

(** Every ID that has some member has all four. *)
Definition complete (svs : list subvol) : Prop :=
  forall k k' id,
    exists_in svs (Member k id) = true -> exists_in svs (Member k' id) = true.

(** The value [next_snapshot_id] computes over the store [svs]. *)
Definition next_id (svs : list subvol) : Z := py_max (rootfs_ids svs) (-1) + 1.

(** The members a completed clone of [src] into [dst] appends, the store's
    identifier supply standing at [u]. *)
Definition cloned_bundle (dst : Z) (u : uuid) (r v e b : subvol) : list subvol :=
  [ mkSubvol (Member Rootfs dst) u (Some (sv_uuid r)) true;
    mkSubvol (Member Var dst) (S u) (Some (sv_uuid v)) true;
    mkSubvol (Member Etc dst) (S (S u)) (Some (sv_uuid e)) true;
    mkSubvol (Member Boot dst) (S (S (S u))) (Some (sv_uuid b)) true ].

(** How a run of the two steps of [deploy]'s block ends. *)
Definition generator_result : outcome unit :=
  match tool grub_mkconfig_cmd with
  | Exit 0 => Ok tt
  | Exit _ => Raise (SystemExit 1)
  | SpawnError => Raise OSError
  end.

(** A check of [complete] that computes. *)
Definition completeb (svs : list subvol) : bool :=
  forallb (fun sv => match sv_path sv with
                     | Member _ id =>
                         exists_in svs (Member Rootfs id) &&
                         exists_in svs (Member Var id) &&
                         exists_in svs (Member Etc id) &&
                         exists_in svs (Member Boot id)
                     | _ => true
                     end) svs.

(** The store without the four members of [sid]. *)
Definition remove_bundle (sid : Z) (svs : list subvol) : list subvol :=
  remove_path (boot_path sid)
    (remove_path (etc_path sid)
       (remove_path (var_path sid)
          (remove_path (snapshot_path sid) svs))).

(** One round of the loop of [gc]. *)
Definition gc_round (keep : list Z) (sid : Z) : M unit :=
  if negb (mem sid keep)
  then
    run (delete_cmd (snapshot_path sid)) false false ;;
    run (delete_cmd (var_path sid)) false false ;;
    run (delete_cmd (etc_path sid)) false false ;;
    run (delete_cmd (boot_path sid)) false false ;;
    ret tt
  else ret tt.

(** What that round does to the store. *)
Definition gc_round_store (keep : list Z) (svs : list subvol) (sid : Z)
  : list subvol :=
  if negb (mem sid keep) then remove_bundle sid svs else svs.

(** The command line with which [gc] reads the deployed snapshot. *)
Definition get_default_cmd : cmdline :=
  [W "btrfs"; W "subvolume"; W "get-default"; P (Abs "/")].

(** The IDs a pass deletes: those with a rootfs member, other than 0, more
    than two away from the deployed ID. *)
Definition collected (d : Z) (svs : list subvol) (id : Z) : Prop :=
  In id (rootfs_ids svs) /\ id <> 0 /\ ~ (d - 2 <= id <= d + 2).

(** The command line [tree_run] runs for the snapshot [sid]. *)
Definition chroot_cmd (sid : Z) (cmd : cmdline) : cmdline :=
  [W "chroot"; P (snapshot_path sid)] ++ cmd.

(** The exit status of the process, as [main-cli.py] derives it. *)
Definition exit_status {A} (r : outcome A) : Z :=
  match r with
  | Ok _ => 0
  | Raise (SystemExit code) => code
  | Raise KeyboardInterrupt => 130
  | _ => 1
  end.

(** What [next_snapshot_id] hands to each of successive runs of
    [actions.clone]. *)
Fixpoint allocated_by_clones (srcs : list Z) (w : world) : list (outcome Z) :=
  match srcs with
  | [] => []
  | src :: rest =>
      fst (next_snapshot_id w)
        :: allocated_by_clones rest (snd (clone [I src] w))
  end.

Fixpoint list_Z_eqb (a b : list Z) : bool :=
  match a, b with
  | [], [] => true
  | x :: a', y :: b' => (x =? y) && list_Z_eqb a' b'
  | _, _ => false
  end.

(** The lineage of the store under the root of [t] is [t]: the children
    [get_children] reports for every node of [t] are the roots of its
    subtrees, in order. *)
Fixpoint shapedb (w : world) (t : tree) : bool :=
  match t with
  | Node id ks =>
      match fst (get_children id w) with
      | Ok ids => list_Z_eqb ids (map root ks) && forallb (shapedb w) ks
      | _ => false
      end
  end.

(** The command [tree_run] runs: its arguments after the ID, without the
    first [--fail-fast]. *)
Definition tree_run_cmd (ws : list word) : cmdline :=
  if contains (W "--fail-fast") ws then remove_first (W "--fail-fast") ws else ws.

(** How a refused call ends: the message is logged, the exit status is 1,
    and nothing else has happened. *)
Definition refused (r : outcome unit * world) (w : world) : Prop :=
  exists text,
    r = (Raise (SystemExit 1), add_line (Log "ERROR" (MsgText text)) w).

(** The calls of the command line that reach a [with lock():] statement. *)
Definition locked_call (cmd : string) (args : list word) : bool :=
  String.eqb cmd "base-update" || String.eqb cmd "gc" ||
  match args with
  | [I _] =>
      String.eqb cmd "clone" || String.eqb cmd "clone-tree" ||
      String.eqb cmd "branch" || String.eqb cmd "deploy"
  | [_; I _] => String.eqb cmd "ubranch"
  | _ => false
  end.

Fixpoint nodupb (l : list nat) : bool :=
  match l with
  | [] => true
  | x :: l' => negb (existsb (Nat.eqb x) l') && nodupb l'
  end.

(** The identifiers of the store are pairwise distinct, and they and the
    lineage identifiers all come from below the store's supply. *)
Definition uuids_ok (w : world) : bool :=
  nodupb (map sv_uuid (subvols w)) &&
  forallb (fun sv =>
             (sv_uuid sv <? next_uuid w)%nat &&
             match sv_parent_uuid sv with
             | Some u => (u <? next_uuid w)%nat
             | None => true
             end) (subvols w).

(** The command lines of [actions.chroot]. *)
Definition bind_cmd (src tgt : path) : cmdline :=
  [W "mount"; W "--bind"; P src; P tgt].

Definition rslave_cmd (root : path) : cmdline :=
  [W "mount"; W "--make-rslave"; P (Sub root "sys")].

Definition shell_cmd (root : path) : cmdline :=
  [W "chroot"; P root; W "/bin/bash"].

Definition umount_cmd (p : path) : cmdline := [W "umount"; P p].

(** What [chroot] mounts, in order: the source and the mount point. *)
Definition chroot_binds (root : path) : list (path * path) :=
  [ (Abs "/var", Sub root "var");
    (Abs "/etc", Sub root "etc");
    (Abs "/proc", Sub root "proc");
    (Abs "/dev", Sub root "dev") ].

(** The two loops of [chroot], over what the tuples of its list hold. *)
Definition mount_all (bs : list (path * path)) : M unit :=
  for_each bs (fun b => run (bind_cmd (fst b) (snd b)) true false ;; ret tt).

Definition umount_all (ps : list path) : M unit :=
  for_each ps (fun p => run (umount_cmd p) false false ;; ret tt).

(** The trace of commands that all ended with status 0. *)
Definition succeeded (cmds : list cmdline) : list (cmdline * proc_outcome) :=
  map (fun c => (c, Exit 0)) cmds.

Definition bind_cmds (bs : list (path * path)) : list cmdline :=
  map (fun b => bind_cmd (fst b) (snd b)) bs.

(** The programs [chroot] runs before its [try] statement. *)
Definition chroot_setup (root : path) : list cmdline :=
  bind_cmds (chroot_binds root) ++ [rslave_cmd root].

(** The mount point a set-up command adds when it succeeds. *)
Definition mount_point (c : cmdline) : list path :=
  match c with
  | [W _; W o; P _; P tgt] => if String.eqb o "--bind" then [tgt] else []
  | _ => []
  end.

(** The [finally] suite of [chroot]. *)
Definition teardown (root : path) : M unit :=
  umount_all (rev (map snd (chroot_binds root))) ;;
  run (umount_cmd (Sub root "sys")) false false ;;
  ret tt.

(** How [umount p] ends in [w]. *)
Definition umount_status (p : path) (w : world) : proc_outcome :=
  if mounted p w then Exit 0 else Exit 32.

(** The command lines of [actions.base_update]. *)
Definition pacman_upgrade_cmd : cmdline := [W "pacman"; W "-Syu"; W "--noconfirm"].

Definition base_snapshot_cmd : cmdline :=
  [W "btrfs"; W "subvolume"; W "snapshot"; P (Abs "/"); P (snapshot_path 0)].

(** The member [base_update] makes: a snapshot of [/] taken without [-r]. *)
Definition new_base (w : world) (s : subvol) : subvol :=
  mkSubvol (snapshot_path 0) (next_uuid w) (Some (sv_uuid s)) false.

(** The file [set_desc] reads and writes. *)
Definition meta_file (snap_id : Z) : path := Sub (snapshot_path snap_id) "meta.json".

(** The keys and values [set_desc] finds: none when the file is missing. *)
Definition meta_fields (snap_id : Z) (d : disk) : option (list (string * jvalue)) :=
  match file_read (meta_file snap_id) d with
  | None => Some []
  | Some (JsonObject fs) => Some fs
  | Some _ => None
  end.

(** The file [edit_conf] hands to the editor. *)
Definition conf_file (snap_id : Z) : path := Sub (snapshot_path snap_id) "ast.conf".

(** A call that spawns [cmd], once, and nothing else: it completes when the
    program exits with status 0, ends with exit status 1 when the program
    exits with any other status, and with [OSError] when the program cannot
    be started; the store and the mounts are as before. *)
Definition runs_only (cmd : cmdline) (m : M unit) (w : world) : Prop :=
  fst (m w) = match tool cmd with
              | Exit 0 => Ok tt
              | Exit _ => Raise (SystemExit 1)
              | SpawnError => Raise OSError
              end /\
  trace (snd (m w)) = trace w ++ [(cmd, tool cmd)] /\
  subvols (snd (m w)) = subvols w /\
  mounts (snd (m w)) = mounts w /\
  default_subvol (snd (m w)) = default_subvol w.

(** * Properties *)

(** ** Sequencing *)

Lemma bind_ok {A B} (m : M A) (f : A -> M B) w a w1 :
  m w = (Ok a, w1) -> bind m f w = f a w1.
Proof. intros H. unfold bind. now rewrite H. Qed.

Lemma bind_raise {A B} (m : M A) (f : A -> M B) w e w1 :
  m w = (Raise e, w1) -> bind m f w = (Raise e, w1).
Proof. intros H. unfold bind. now rewrite H. Qed.

Lemma bind_out_of_fuel {A B} (m : M A) (f : A -> M B) w :
  fst (m w) = OutOfFuel -> fst (bind m f w) = OutOfFuel.
Proof.
  intros H. unfold bind. destruct (m w) as [r w1]. simpl in H. now subst r.
Qed.

Lemma bind_blocked {A B} (m : M A) (f : A -> M B) w :
  fst (m w) = Blocked -> fst (bind m f w) = Blocked.
Proof.
  intros H. unfold bind. destruct (m w) as [r w1]. simpl in H. now subst r.
Qed.

(** ** Look-ups in the store *)

Lemma path_exists_subvols p w : path_exists p w = exists_in (subvols w) p.
Proof. reflexivity. Qed.

Lemma has_path_true p sv : has_path p sv = true <-> sv_path sv = p.
Proof.
  unfold has_path. destruct (path_eq_dec (sv_path sv) p); split; congruence.
Qed.

Lemma exists_in_spec svs p :
  exists_in svs p = true <-> exists sv, In sv svs /\ sv_path sv = p.
Proof.
  unfold exists_in. rewrite existsb_exists.
  split; intros [sv [Hin Hp]]; exists sv; split; auto; now apply has_path_true.
Qed.

Lemma exists_in_app svs svs' p :
  exists_in (svs ++ svs') p = exists_in svs p || exists_in svs' p.
Proof. apply existsb_app. Qed.

Lemma find_subvol_some svs p :
  exists_in svs p = true -> exists s, find_subvol p svs = Some s /\ sv_path s = p.
Proof.
  unfold exists_in, find_subvol. induction svs as [|sv svs IH]; simpl.
  - discriminate.
  - destruct (has_path p sv) eqn:E.
    + intros _. exists sv. split; auto. now apply has_path_true.
    + simpl. exact IH.
Qed.

Lemma find_subvol_none svs p :
  exists_in svs p = false -> find_subvol p svs = None.
Proof.
  unfold exists_in, find_subvol. induction svs as [|sv svs IH]; simpl; auto.
  destruct (has_path p sv); simpl; [discriminate | exact IH].
Qed.

Lemma find_subvol_app_l svs svs' p s :
  find_subvol p svs = Some s -> find_subvol p (svs ++ svs') = Some s.
Proof.
  unfold find_subvol. induction svs as [|sv svs IH]; simpl.
  - discriminate.
  - destruct (has_path p sv); auto.
Qed.

Lemma remove_path_spec p svs sv :
  In sv (remove_path p svs) <-> In sv svs /\ sv_path sv <> p.
Proof.
  unfold remove_path. rewrite filter_In. split; intros [H1 H2]; split; auto.
  - intros E. apply has_path_true in E. rewrite E in H2. discriminate.
  - destruct (has_path p sv) eqn:E; auto. apply has_path_true in E. contradiction.
Qed.

(** ** [utils.run] *)

(** What one call of [utils.run] does, from how the program ends. *)
Lemma run_eq cmd check capture w o out w1 :
  external cmd (add_line (Echo cmd) w) = (o, out, w1) ->
  run cmd check capture w =
    match o with
    | SpawnError => (Raise OSError, add_trace cmd o w1)
    | Exit c =>
        if check && negb (c =? 0)
        then (Raise (SystemExit 1),
              add_line (Log "ERROR" (MsgCommandFailed cmd))
                (if capture
                 then add_line (Log "ERROR" (MsgStderr cmd)) (add_trace cmd o w1)
                 else add_trace cmd o w1))
        else (Ok (if capture then Some out else None), add_trace cmd o w1)
    end.
Proof.
  intros H.
  unfold run, bind, emit, try_except, subprocess_run.
  rewrite H.
  destruct o as [c|]; [|reflexivity].
  destruct check; simpl; [|reflexivity].
  destruct (c =? 0); simpl; [reflexivity|].
  destruct capture; reflexivity.
Qed.

Lemma external_snapshot_ro src dst w :
  external [W "btrfs"; W "subvolume"; W "snapshot"; W "-r"; P src; P dst] w =
  (fst (snapshot_effect true src dst w), [], snd (snapshot_effect true src dst w)).
Proof. reflexivity. Qed.

Lemma external_delete p w :
  external (delete_cmd p) w =
  (fst (delete_effect p w), [], snd (delete_effect p w)).
Proof. reflexivity. Qed.

Lemma external_set_default id w :
  external (set_default_cmd id) w =
  (fst (set_default_effect (snapshot_path id) w), [],
   snd (set_default_effect (snapshot_path id) w)).
Proof. reflexivity. Qed.

Lemma external_grub w :
  external grub_mkconfig_cmd w = (tool grub_mkconfig_cmd, [], w).
Proof. reflexivity. Qed.

(** ** [btrfs_snapshot] *)

Lemma btrfs_snapshot_exists src dst w :
  path_exists dst w = true ->
  btrfs_snapshot src dst w =
  (Raise (SystemExit 1), add_line (Log "ERROR" (MsgDestExists dst)) w).
Proof.
  intros H. unfold btrfs_snapshot.
  unfold bind at 1. rewrite H. reflexivity.
Qed.

Lemma btrfs_snapshot_no_source src dst w :
  path_exists dst w = false ->
  find_subvol src (subvols w) = None ->
  btrfs_snapshot src dst w =
  (Raise (SystemExit 1),
   add_line (Log "ERROR" (MsgCommandFailed (snapshot_cmd src dst)))
     (add_trace (snapshot_cmd src dst) (Exit 1)
        (add_line (Echo (snapshot_cmd src dst)) w))).
Proof.
  intros Hd Hs. unfold btrfs_snapshot.
  unfold bind at 1. rewrite Hd. cbv beta iota.
  unfold bind at 1. unfold ret at 1. cbv beta iota.
  unfold bind at 1.
  rewrite (run_eq _ true false _ (external_snapshot_ro src dst _)).
  unfold snapshot_effect. simpl subvols. rewrite Hs. reflexivity.
Qed.

Lemma btrfs_snapshot_ok src dst w s :
  path_exists dst w = false ->
  find_subvol src (subvols w) = Some s ->
  btrfs_snapshot src dst w =
  (Ok tt,
   add_trace (snapshot_cmd src dst) (Exit 0)
     (set_next_uuid (S (next_uuid w))
        (set_subvols
           (subvols w ++ [mkSubvol dst (next_uuid w) (Some (sv_uuid s)) true])
           (add_line (Echo (snapshot_cmd src dst)) w)))).
Proof.
  intros Hd Hs. unfold btrfs_snapshot.
  unfold bind at 1. rewrite Hd. cbv beta iota.
  unfold bind at 1. unfold ret at 1. cbv beta iota.
  unfold bind at 1.
  rewrite (run_eq _ true false _ (external_snapshot_ro src dst _)).
  unfold snapshot_effect. simpl subvols. rewrite Hs.
  unfold path_exists in *. simpl subvols. rewrite Hd. reflexivity.
Qed.

(** ** The lock *)

(** Entering [with lock():] raises before the block starts; the frame of the
    generator is never run, so the lock file is not even opened. *)
Lemma with_lock_raises {A} (body : M A) w :
  (cm <- lock ;; with_ cm body) w = (Raise TypeError, w).
Proof. reflexivity. Qed.

Lemma next_snapshot_id_free w :
  lock_holder w = None ->
  next_snapshot_id w =
  (Ok (py_max (rootfs_ids (subvols w)) (-1) + 1), set_next_fd (S (next_fd w)) w).
Proof.
  intros H. destruct w as [svs nu d ms lh nf con tr]. simpl in H. subst lh.
  unfold next_snapshot_id, bind, with_, try_finally, open_lock_file, flock,
    glob_rootfs, close, ret, bind. simpl.
  rewrite Nat.eqb_refl. reflexivity.
Qed.

Lemma next_snapshot_id_held w h :
  lock_holder w = Some h -> h <> next_fd w ->
  fst (next_snapshot_id w) = Blocked.
Proof.
  intros H Hne. destruct w as [svs nu d ms lh nf con tr]. simpl in *. subst lh.
  unfold next_snapshot_id, bind, with_, try_finally, open_lock_file, flock. simpl.
  destruct (Nat.eqb h nf) eqn:E; [|reflexivity].
  apply Nat.eqb_eq in E. contradiction.
Qed.

(** ** Properties kept by every step

    A relation between the world before and the world after that is
    reflexive, transitive and blind to the console, the trace, the file
    descriptors and the lock is kept by every statement that touches the
    store only through external programs that keep it. *)

Section Frame.

Variable R : world -> world -> Prop.
Hypothesis HR : frame_rel R.

Ltac frame_auto :=
  pose proof (fr_refl HR); pose proof (fr_line HR); pose proof (fr_trace HR);
  pose proof (fr_fd HR); pose proof (fr_lock HR); auto.

Lemma keeps_ret {A} (a : A) : keeps R (ret a).
Proof. intros w. apply (fr_refl HR). Qed.

Lemma keeps_raise {A} e : keeps R (@raise A e).
Proof. intros w. apply (fr_refl HR). Qed.

Lemma keeps_bind {A B} (m : M A) (f : A -> M B) :
  keeps R m -> (forall a, keeps R (f a)) -> keeps R (bind m f).
Proof.
  intros Hm Hf w. unfold bind. specialize (Hm w).
  destruct (m w) as [[a|e| | |] w1]; simpl in *; frame_auto.
  eapply (fr_trans HR); [exact Hm | apply Hf].
Qed.

Lemma keeps_try_except {A} (m : M A) c h :
  keeps R m -> (forall e, keeps R (h e)) -> keeps R (try_except m c h).
Proof.
  intros Hm Hh w. unfold try_except. specialize (Hm w).
  destruct (m w) as [[a|e| | |] w1]; simpl in *; frame_auto.
  destruct (c e); simpl; frame_auto.
  eapply (fr_trans HR); [exact Hm | apply Hh].
Qed.

Lemma keeps_try_finally {A} (m : M A) fin :
  keeps R m -> keeps R fin -> keeps R (try_finally m fin).
Proof.
  intros Hm Hf w. unfold try_finally. specialize (Hm w).
  destruct (m w) as [[a|e| | |] w1]; simpl in *; frame_auto.
  - eapply (fr_trans HR); [exact Hm|].
    apply keeps_bind; [exact Hf|]. intros; apply keeps_ret.
  - eapply (fr_trans HR); [exact Hm|].
    apply keeps_bind; [exact Hf|]. intros; apply keeps_raise.
Qed.

Lemma keeps_for_each {A} (xs : list A) body :
  (forall x, keeps R (body x)) -> keeps R (for_each xs body).
Proof.
  intros Hb. induction xs as [|x xs IH]; simpl.
  - apply keeps_ret.
  - apply keeps_bind; frame_auto.
Qed.

Lemma keeps_emit l : keeps R (emit l).
Proof. intros w. apply (fr_line HR). Qed.

Lemma keeps_die {A} m c : keeps R (@die A m c).
Proof.
  unfold die, log. apply keeps_bind; [apply keeps_emit|].
  intros; apply keeps_raise.
Qed.

Lemma keeps_close fd : keeps R (close fd).
Proof.
  intros w. unfold close. destruct (lock_holder w) as [h|]; simpl; frame_auto.
  destruct (Nat.eqb h fd); simpl; frame_auto.
Qed.

Lemma keeps_flock fd : keeps R (flock fd).
Proof.
  intros w. unfold flock. destruct (lock_holder w) as [h|]; simpl; frame_auto.
  destruct (Nat.eqb h fd); simpl; frame_auto.
Qed.

Lemma keeps_with {A} cm (body : M A) : keeps R body -> keeps R (with_ cm body).
Proof.
  intros Hb. destruct cm; simpl.
  - apply keeps_try_finally; frame_auto. apply keeps_close.
  - apply keeps_raise.
Qed.

Lemma keeps_lock : keeps R lock.
Proof. apply keeps_ret. Qed.

Lemma keeps_next_snapshot_id : keeps R next_snapshot_id.
Proof.
  unfold next_snapshot_id. apply keeps_bind.
  - intros w. apply (fr_fd HR).
  - intros fd. apply keeps_with. apply keeps_bind; [apply keeps_flock|].
    intros _. apply keeps_bind; [intros w; apply (fr_refl HR)|].
    intros; apply keeps_ret.
Qed.

Lemma keeps_get_children id : keeps R (get_children id).
Proof.
  intros w. unfold get_children.
  destruct (find_subvol (snapshot_path id) (subvols w)); apply (fr_refl HR).
Qed.

Lemma keeps_int x : keeps R (int x).
Proof. destruct x; simpl; try apply keeps_raise. apply keeps_ret. Qed.

(** [utils.run] keeps what the program it runs keeps. *)
Lemma keeps_run cmd check capture :
  (forall w, R w (snd (external cmd w))) -> keeps R (run cmd check capture).
Proof.
  intros He w.
  destruct (external cmd (add_line (Echo cmd) w)) as [[o out] w1] eqn:E.
  rewrite (run_eq _ check capture _ E).
  assert (Hw1 : R w w1).
  { eapply (fr_trans HR); [apply (fr_line HR)|]. specialize (He (add_line (Echo cmd) w)).
    rewrite E in He. exact He. }
  destruct o as [c|]; simpl.
  - destruct (check && negb (c =? 0)); simpl.
    + destruct capture;
        repeat (eapply (fr_trans HR); [|apply (fr_line HR)]);
        (eapply (fr_trans HR); [exact Hw1 | apply (fr_trace HR)]).
    + eapply (fr_trans HR); [exact Hw1 | apply (fr_trace HR)].
  - eapply (fr_trans HR); [exact Hw1 | apply (fr_trace HR)].
Qed.

End Frame.

(** ** Operations under [with lock():] *)

Lemma clone_raises src w :
  lock_holder w = None ->
  clone [I src] w = (Raise TypeError, set_next_fd (S (next_fd w)) w).
Proof.
  intros H. unfold clone, int.
  unfold bind at 1, ret at 1.
  rewrite (bind_ok _ _ _ (next_snapshot_id_free _ H)). reflexivity.
Qed.

Lemma clone_tree_raises fuel root w :
  clone_tree fuel [I root] w = (Raise TypeError, w).
Proof. reflexivity. Qed.

Lemma deploy_raises id w : deploy [I id] w = (Raise TypeError, w).
Proof. reflexivity. Qed.

Lemma base_update_raises w : base_update w = (Raise TypeError, w).
Proof. reflexivity. Qed.

Lemma gc_raises w : gc w = (Raise TypeError, w).
Proof. reflexivity. Qed.

(** C5.  Every operation that reaches its [with lock():] statement (clone,
    clone_tree, deploy, base_update, gc: with one integer argument where they
    take one) ends there with [TypeError]: [lock()] hands back a generator
    object, which is no context manager.  No external program has been run
    by then, and the store, the default subvolume, the mounts and the lock
    are as they were. *)
Theorem with_lock_raises_before_any_mutation (w : world) :
  lock_holder w = None ->
  (forall src,
      fst (clone [I src] w) = Raise TypeError /\
      untouched w (snd (clone [I src] w))) /\
  (forall fuel root,
      fst (clone_tree fuel [I root] w) = Raise TypeError /\
      untouched w (snd (clone_tree fuel [I root] w))) /\
  (forall id,
      fst (deploy [I id] w) = Raise TypeError /\
      untouched w (snd (deploy [I id] w))) /\
  (fst (base_update w) = Raise TypeError /\ untouched w (snd (base_update w))) /\
  (fst (gc w) = Raise TypeError /\ untouched w (snd (gc w))).
Proof.
  intros H. unfold untouched. repeat split; intros;
    rewrite ?(clone_raises _ _ H), ?clone_tree_raises, ?deploy_raises,
            ?base_update_raises, ?gc_raises; reflexivity.
Qed.

Ltac keeps_with HR :=
  repeat first
    [ apply (keeps_ret HR) | apply (keeps_raise HR) | apply (keeps_emit HR)
    | apply (keeps_die HR) | apply (keeps_lock HR) | apply (keeps_int HR)
    | apply (keeps_next_snapshot_id HR) | apply (keeps_get_children HR)
    | apply (keeps_with HR) | apply (keeps_for_each HR)
    | apply (keeps_try_except HR) | apply (keeps_try_finally HR)
    | apply (keeps_bind HR) | progress intros ].

(** ** The store only grows, by read-only members, under cloning *)

Lemma grows_ro_same w w' : subvols w' = subvols w -> grows_ro w w'.
Proof. intros H. exists []. rewrite app_nil_r. auto. Qed.

Lemma grows_ro_frame : frame_rel grows_ro.
Proof.
  constructor; try (intros; apply grows_ro_same; reflexivity).
  intros a b c [x [Hx Fx]] [y [Hy Fy]]. exists (x ++ y). split.
  - rewrite Hy, Hx. now rewrite app_assoc.
  - apply Forall_app; auto.
Qed.

Lemma snapshot_ro_grows src dst w :
  grows_ro w (snd (external (snapshot_cmd src dst) w)).
Proof.
  unfold snapshot_cmd. rewrite external_snapshot_ro. simpl.
  unfold snapshot_effect.
  destruct (find_subvol src (subvols w)) as [s|]; [|now apply grows_ro_same].
  destruct (path_exists dst w); [now apply grows_ro_same|].
  simpl. eexists. split; [reflexivity|]. repeat constructor.
Qed.

Lemma btrfs_snapshot_grows src dst : keeps grows_ro (btrfs_snapshot src dst).
Proof.
  unfold btrfs_snapshot. apply (keeps_bind grows_ro_frame).
  - intros w. apply grows_ro_same. reflexivity.
  - intros ex. apply (keeps_bind grows_ro_frame).
    + destruct ex; keeps_with grows_ro_frame.
    + intros _. apply (keeps_bind grows_ro_frame).
      * apply (keeps_run grows_ro_frame). apply snapshot_ro_grows.
      * keeps_with grows_ro_frame.
Qed.

Lemma clone_block_grows src dst : keeps grows_ro (clone_block src dst).
Proof.
  unfold clone_block.
  repeat (apply (keeps_bind grows_ro_frame); [apply btrfs_snapshot_grows | intros _]).
  apply btrfs_snapshot_grows.
Qed.



Lemma untouched_add_line l w : untouched w (add_line l w).
Proof. unfold untouched. repeat split. Qed.

Lemma clone_block_exists src dst w :
  path_exists (snapshot_path dst) w = true ->
  clone_block src dst w =
  (Raise (SystemExit 1),
   add_line (Log "ERROR" (MsgDestExists (snapshot_path dst))) w).
Proof.
  intros H. unfold clone_block.
  apply bind_raise. now apply btrfs_snapshot_exists.
Qed.

(** C8.  Cloning a member onto a path that exists stops with the conflict
    message and exit status 1 before the clone primitive is run (the trace of
    processes is as before) and with the store as it was.  In particular the
    four-member clone into an ID whose bundle exists stops at its first
    member.  And whatever the destination, the members that existed before a
    four-member clone are all still there, unchanged and in place: the store
    only gets longer. *)
Theorem clone_refuses_existing_destination (w : world) :
  (forall src dst,
      path_exists dst w = true ->
      fst (btrfs_snapshot src dst w) = Raise (SystemExit 1) /\
      In (Log "ERROR" (MsgDestExists dst)) (console (snd (btrfs_snapshot src dst w))) /\
      untouched w (snd (btrfs_snapshot src dst w))) /\
  (forall src dst,
      bundle_exists dst w = true ->
      fst (clone_block src dst w) = Raise (SystemExit 1) /\
      untouched w (snd (clone_block src dst w))) /\
  (forall src dst,
      exists added, subvols (snd (clone_block src dst w)) = subvols w ++ added).
Proof.
  split; [|split].
  - intros src dst H. rewrite (btrfs_snapshot_exists src dst w H). simpl.
    split; [reflexivity|]. split; [|apply untouched_add_line].
    apply in_or_app. right. left. reflexivity.
  - intros src dst H. unfold bundle_exists in H.
    apply andb_prop in H. destruct H as [H _].
    apply andb_prop in H. destruct H as [H _].
    apply andb_prop in H. destruct H as [H _].
    rewrite (clone_block_exists src dst w H). simpl.
    split; [reflexivity | apply untouched_add_line].
  - intros src dst. destruct (clone_block_grows src dst w) as [added [H _]].
    exists added. exact H.
Qed.




(** ** Allocation *)

Lemma fold_left_max_ge (xs : list Z) :
  forall a, a <= fold_left Z.max xs a /\
            (forall x, In x xs -> x <= fold_left Z.max xs a).
Proof.
  induction xs as [|y xs IH]; intros a; simpl.
  - split; [lia | contradiction].
  - destruct (IH (Z.max a y)) as [H1 H2]. split; [lia|].
    intros x [->|Hx]; [lia | auto].
Qed.

Lemma py_max_ge ids d x : In x ids -> x <= py_max ids d.
Proof.
  destruct ids as [|y ys]; simpl; [contradiction|].
  destruct (fold_left_max_ge ys y) as [H1 H2].
  intros [->|Hx]; auto.
Qed.



Lemma rootfs_ids_spec svs id :
  In id (rootfs_ids svs) <-> exists_in svs (Member Rootfs id) = true.
Proof.
  unfold rootfs_ids. rewrite in_flat_map, exists_in_spec.
  split; intros [sv [Hin H]]; exists sv; split; auto.
  - destruct (sv_path sv) as [[| | |] i| |]; simpl in H; try contradiction.
    destruct H as [->|[]]. reflexivity.
  - rewrite H. left. reflexivity.
Qed.

Lemma rootfs_ids_app a b : rootfs_ids (a ++ b) = rootfs_ids a ++ rootfs_ids b.
Proof. apply flat_map_app. Qed.

Lemma next_id_fresh svs k :
  complete svs -> exists_in svs (Member k (next_id svs)) = false.
Proof.
  intros Hc. destruct (exists_in svs (Member k (next_id svs))) eqn:E; auto.
  apply (Hc k Rootfs) in E. apply rootfs_ids_spec in E.
  apply (py_max_ge _ (-1)) in E. unfold next_id in E. lia.
Qed.

(** ** The four-member clone *)

Lemma bind_assoc {A B C} (m : M A) (f : A -> M B) (g : B -> M C) w :
  bind (bind m f) g w = bind m (fun x => bind (f x) g) w.
Proof. unfold bind. destruct (m w) as [[a|e| | |] w1]; reflexivity. Qed.

Lemma btrfs_snapshot_done src dst w s :
  path_exists dst w = false ->
  find_subvol src (subvols w) = Some s ->
  exists w',
    btrfs_snapshot src dst w = (Ok tt, w') /\
    subvols w' = subvols w ++ [mkSubvol dst (next_uuid w) (Some (sv_uuid s)) true] /\
    next_uuid w' = S (next_uuid w) /\
    lock_holder w' = lock_holder w /\
    next_fd w' = next_fd w.
Proof.
  intros Hd Hs. eexists. split; [apply (btrfs_snapshot_ok src dst w Hd Hs)|].
  repeat split.
Qed.

Lemma exists_in_snoc svs sv p :
  exists_in (svs ++ [sv]) p = exists_in svs p || has_path p sv.
Proof. rewrite exists_in_app. simpl. now rewrite orb_false_r. Qed.

Lemma has_path_other p sv : sv_path sv <> p -> has_path p sv = false.
Proof.
  intros H. destruct (has_path p sv) eqn:E; auto.
  apply has_path_true in E. contradiction.
Qed.

Lemma clone_block_done src dst w r v e b :
  find_subvol (Member Rootfs src) (subvols w) = Some r ->
  find_subvol (Member Var src) (subvols w) = Some v ->
  find_subvol (Member Etc src) (subvols w) = Some e ->
  find_subvol (Member Boot src) (subvols w) = Some b ->
  (forall k, exists_in (subvols w) (Member k dst) = false) ->
  exists w',
    clone_block src dst w = (Ok tt, w') /\
    subvols w' = subvols w ++ cloned_bundle dst (next_uuid w) r v e b /\
    lock_holder w' = lock_holder w /\
    next_fd w' = next_fd w.
Proof.
  intros Hr Hv He Hb Hfresh. unfold clone_block.
  unfold snapshot_path, var_path, etc_path, boot_path.
  destruct (btrfs_snapshot_done (Member Rootfs src) (Member Rootfs dst) w
              (Hfresh Rootfs) Hr) as [w1 [E1 [S1 [U1 [L1 F1]]]]].
  rewrite (bind_ok _ _ _ E1).
  assert (Hd2 : path_exists (Member Var dst) w1 = false).
  { rewrite path_exists_subvols, S1, exists_in_snoc, (Hfresh Var).
    simpl. apply has_path_other. simpl. discriminate. }
  assert (Hs2 : find_subvol (Member Var src) (subvols w1) = Some v).
  { rewrite S1. now apply find_subvol_app_l. }
  destruct (btrfs_snapshot_done _ _ _ Hd2 Hs2) as [w2 [E2 [S2 [U2 [L2 F2]]]]].
  rewrite (bind_ok _ _ _ E2).
  assert (Hd3 : path_exists (Member Etc dst) w2 = false).
  { rewrite path_exists_subvols, S2, S1, !exists_in_snoc, (Hfresh Etc).
    simpl. rewrite !has_path_other; simpl; auto; discriminate. }
  assert (Hs3 : find_subvol (Member Etc src) (subvols w2) = Some e).
  { rewrite S2, S1. now apply find_subvol_app_l, find_subvol_app_l. }
  destruct (btrfs_snapshot_done _ _ _ Hd3 Hs3) as [w3 [E3 [S3 [U3 [L3 F3]]]]].
  rewrite (bind_ok _ _ _ E3).
  assert (Hd4 : path_exists (Member Boot dst) w3 = false).
  { rewrite path_exists_subvols, S3, S2, S1, !exists_in_snoc, (Hfresh Boot).
    simpl. rewrite !has_path_other; simpl; auto; discriminate. }
  assert (Hs4 : find_subvol (Member Boot src) (subvols w3) = Some b).
  { rewrite S3, S2, S1.
    now apply find_subvol_app_l, find_subvol_app_l, find_subvol_app_l. }
  destruct (btrfs_snapshot_done _ _ _ Hd4 Hs4) as [w4 [E4 [S4 [U4 [L4 F4]]]]].
  exists w4. split; [exact E4|]. split; [|split; congruence].
  rewrite S4, S3, S2, S1, U3, U2, U1. unfold cloned_bundle.
  rewrite <- !app_assoc. reflexivity.
Qed.

Lemma exists_in_cloned_bundle dst u r v e b k id :
  exists_in (cloned_bundle dst u r v e b) (Member k id) = true <-> id = dst.
Proof.
  rewrite exists_in_spec. unfold cloned_bundle. split.
  - intros [sv [Hin Hp]]. simpl in Hin.
    destruct Hin as [<-|[<-|[<-|[<-|[]]]]]; simpl in Hp; congruence.
  - intros ->. destruct k.
    + eexists; split; [left; reflexivity | reflexivity].
    + eexists; split; [right; left; reflexivity | reflexivity].
    + eexists; split; [right; right; left; reflexivity | reflexivity].
    + eexists; split; [right; right; right; left; reflexivity | reflexivity].
Qed.

Lemma complete_cloned svs dst u r v e b :
  complete svs -> complete (svs ++ cloned_bundle dst u r v e b).
Proof.
  intros Hc k k' id. rewrite !exists_in_app, !orb_true_iff.
  intros [H|H].
  - left. exact (Hc k k' id H).
  - right. apply exists_in_cloned_bundle in H. now apply exists_in_cloned_bundle.
Qed.

Lemma complete_find svs k id :
  complete svs -> exists_in svs (Member Rootfs id) = true ->
  exists s, find_subvol (Member k id) svs = Some s.
Proof.
  intros Hc H. apply (Hc Rootfs k) in H.
  destruct (find_subvol_some _ _ H) as [s [Hs _]]. eauto.
Qed.

(** Cloning an existing bundle of a complete store into the next ID goes
    through. *)
Lemma clone_block_next src w :
  complete (subvols w) ->
  exists_in (subvols w) (Member Rootfs src) = true ->
  exists w' r v e b,
    find_subvol (Member Rootfs src) (subvols w) = Some r /\
    clone_block src (next_id (subvols w)) w = (Ok tt, w') /\
    subvols w' =
      subvols w ++ cloned_bundle (next_id (subvols w)) (next_uuid w) r v e b /\
    lock_holder w' = lock_holder w /\
    next_fd w' = next_fd w.
Proof.
  intros Hc Hsrc.
  destruct (complete_find Rootfs src Hc Hsrc) as [r Hr].
  destruct (complete_find Var src Hc Hsrc) as [v Hv].
  destruct (complete_find Etc src Hc Hsrc) as [e He].
  destruct (complete_find Boot src Hc Hsrc) as [b Hb].
  destruct (clone_block_done src (next_id (subvols w)) w Hr Hv He Hb)
    as [w' [E [S [L F]]]].
  { intros k. now apply next_id_fresh. }
  exists w', r, v, e, b. auto.
Qed.

(** ** The recursive clone *)

Lemma clone_block_then {B} src dst (k : M B) w :
  (btrfs_snapshot (snapshot_path src) (snapshot_path dst) ;;
   btrfs_snapshot (var_path src) (var_path dst) ;;
   btrfs_snapshot (etc_path src) (etc_path dst) ;;
   btrfs_snapshot (boot_path src) (boot_path dst) ;;
   k) w
  = (clone_block src dst ;; k) w.
Proof.
  unfold clone_block, bind.
  destruct (btrfs_snapshot (snapshot_path src) (snapshot_path dst) w)
    as [[[]|e| | |] w1]; try reflexivity.
  destruct (btrfs_snapshot (var_path src) (var_path dst) w1)
    as [[[]|e| | |] w2]; try reflexivity.
  destruct (btrfs_snapshot (etc_path src) (etc_path dst) w2)
    as [[[]|e| | |] w3]; reflexivity.
Qed.

Lemma get_children_found id w s :
  find_subvol (snapshot_path id) (subvols w) = Some s ->
  get_children id w = (Ok (child_ids (sv_uuid s) (subvols w)), w).
Proof. intros H. unfold get_children. now rewrite H. Qed.

Lemma child_ids_app u a b :
  child_ids u (a ++ b) = child_ids u a ++ child_ids u b.
Proof. apply flat_map_app. Qed.

Lemma child_ids_exists u svs c :
  In c (child_ids u svs) -> exists k, exists_in svs (Member k c) = true.
Proof.
  unfold child_ids. rewrite in_flat_map. intros [sv [Hin H]].
  destruct (is_child_of u sv); [|contradiction].
  destruct (sv_path sv) as [k i| |] eqn:E; simpl in H; try contradiction.
  destruct H as [->|[]]. exists k. apply exists_in_spec. eauto.
Qed.

(** After a bundle was cloned, its fresh clone is among its children. *)
Lemma fresh_clone_is_a_child dst u r v e b :
  In dst (child_ids (sv_uuid r) (cloned_bundle dst u r v e b)).
Proof.
  unfold cloned_bundle, child_ids, is_child_of. simpl.
  rewrite Nat.eqb_refl. simpl. auto.
Qed.

(** The recursive clone of an existing bundle never returns: the clone it
    has just made is a child of its source, and is cloned in turn. *)
Lemma _clone_recursive_diverges fuel :
  forall snap_id parent_new w,
    lock_holder w = None ->
    complete (subvols w) ->
    exists_in (subvols w) (Member Rootfs snap_id) = true ->
    fst (_clone_recursive fuel snap_id parent_new w) = OutOfFuel.
Proof.
  induction fuel as [|fuel IH]; intros snap_id parent_new w Hl Hc Hs.
  - reflexivity.
  - simpl. rewrite (bind_ok _ _ _ (next_snapshot_id_free _ Hl)).
    rewrite clone_block_then.
    set (w1 := set_next_fd (S (next_fd w)) w).
    destruct (clone_block_next snap_id w1 Hc Hs)
      as [w5 [r [v [e [b [Hr [E [S5 [L5 F5]]]]]]]]].
    change (py_max (rootfs_ids (subvols w)) (-1) + 1) with (next_id (subvols w1)).
    rewrite (bind_ok _ _ _ E).
    assert (Hr5 : find_subvol (snapshot_path snap_id) (subvols w5) = Some r).
    { rewrite S5. now apply find_subvol_app_l. }
    rewrite (bind_ok _ _ _ (get_children_found _ _ Hr5)).
    apply bind_out_of_fuel.
    assert (Hin : In (next_id (subvols w1)) (child_ids (sv_uuid r) (subvols w5))).
    { rewrite S5, child_ids_app. apply in_or_app. right.
      apply fresh_clone_is_a_child. }
    destruct (child_ids (sv_uuid r) (subvols w5)) as [|c cs] eqn:Ech;
      [contradiction|].
    simpl. apply bind_out_of_fuel, bind_out_of_fuel. apply IH.
    + rewrite L5. exact Hl.
    + rewrite S5. now apply complete_cloned.
    + assert (Hc5 : complete (subvols w5)) by (rewrite S5; now apply complete_cloned).
      destruct (child_ids_exists (sv_uuid r) (subvols w5) c) as [k Hk].
      { rewrite Ech. left. reflexivity. }
      exact (Hc5 k Rootfs c Hk).
Qed.

(** Run with the lock held through another file description, as the block
    of [clone_tree] is written to be, the recursive clone waits for that lock
    in its first [next_snapshot_id]. *)
Lemma _clone_recursive_blocks fuel snap_id parent_new w h :
  lock_holder w = Some h -> h <> next_fd w ->
  fst (_clone_recursive (S fuel) snap_id parent_new w) = Blocked.
Proof.
  intros Hl Hne. simpl. apply bind_blocked.
  now apply (next_snapshot_id_held w Hl).
Qed.

(** ** [deploy] *)

Lemma run_set_default id w :
  run (set_default_cmd id) true false w =
  if path_exists (snapshot_path id) w
  then (Ok None,
        add_trace (set_default_cmd id) (Exit 0)
          (set_default_subvol (snapshot_path id)
             (add_line (Echo (set_default_cmd id)) w)))
  else (Raise (SystemExit 1),
        add_line (Log "ERROR" (MsgCommandFailed (set_default_cmd id)))
          (add_trace (set_default_cmd id) (Exit 1)
             (add_line (Echo (set_default_cmd id)) w))).
Proof.
  rewrite (run_eq _ true false _ (external_set_default id _)).
  unfold set_default_effect.
  change (path_exists (snapshot_path id) (add_line (Echo (set_default_cmd id)) w))
    with (path_exists (snapshot_path id) w).
  destruct (path_exists (snapshot_path id) w); reflexivity.
Qed.

Lemma run_grub w :
  run grub_mkconfig_cmd true false w =
  match tool grub_mkconfig_cmd with
  | Exit 0 =>
      (Ok None,
       add_trace grub_mkconfig_cmd (Exit 0) (add_line (Echo grub_mkconfig_cmd) w))
  | Exit c =>
      (Raise (SystemExit 1),
       add_line (Log "ERROR" (MsgCommandFailed grub_mkconfig_cmd))
         (add_trace grub_mkconfig_cmd (Exit c)
            (add_line (Echo grub_mkconfig_cmd) w)))
  | SpawnError =>
      (Raise OSError,
       add_trace grub_mkconfig_cmd SpawnError
         (add_line (Echo grub_mkconfig_cmd) w))
  end.
Proof.
  rewrite (run_eq _ true false _ (external_grub _)).
  destruct (tool grub_mkconfig_cmd) as [[|p|p]|]; reflexivity.
Qed.

Lemma deploy_block_eq id w :
  deploy_block id w =
  if path_exists (snapshot_path id) w
  then
    let w1 := add_trace (set_default_cmd id) (Exit 0)
                (set_default_subvol (snapshot_path id)
                   (add_line (Echo (set_default_cmd id)) w)) in
    match tool grub_mkconfig_cmd with
    | Exit 0 =>
        (Ok tt,
         add_trace grub_mkconfig_cmd (Exit 0)
           (add_line (Echo grub_mkconfig_cmd) w1))
    | Exit c =>
        (Raise (SystemExit 1),
         add_line (Log "ERROR" (MsgCommandFailed grub_mkconfig_cmd))
           (add_trace grub_mkconfig_cmd (Exit c)
              (add_line (Echo grub_mkconfig_cmd) w1)))
    | SpawnError =>
        (Raise OSError,
         add_trace grub_mkconfig_cmd SpawnError
           (add_line (Echo grub_mkconfig_cmd) w1))
    end
  else (Raise (SystemExit 1),
        add_line (Log "ERROR" (MsgCommandFailed (set_default_cmd id)))
          (add_trace (set_default_cmd id) (Exit 1)
             (add_line (Echo (set_default_cmd id)) w))).
Proof.
  unfold deploy_block. unfold bind at 1. rewrite run_set_default.
  destruct (path_exists (snapshot_path id) w); [|reflexivity].
  unfold bind at 1. rewrite run_grub.
  destruct (tool grub_mkconfig_cmd) as [[|p|p]|]; reflexivity.
Qed.

(** X23.  The two steps of the block of [deploy], run on their own, come in
    this order and no other: the default-subvolume change first; the
    bootloader generator only once that change has completed with status 0.
    When the generator then fails the run ends there: the default subvolume
    is [id]'s rootfs member and no further program is run, so nothing is
    rolled back. *)
Theorem deploy_block_runs_generator_last (id : Z) (w : world) :
  let r := fst (deploy_block id w) in
  let w' := snd (deploy_block id w) in
  (path_exists (snapshot_path id) w = false /\
   r = Raise (SystemExit 1) /\
   trace w' = trace w ++ [(set_default_cmd id, Exit 1)] /\
   default_subvol w' = default_subvol w)
  \/
  (path_exists (snapshot_path id) w = true /\
   r = generator_result /\
   trace w' = trace w ++ [(set_default_cmd id, Exit 0);
                          (grub_mkconfig_cmd, tool grub_mkconfig_cmd)] /\
   default_subvol w' = snapshot_path id).
Proof.
  intros r w'. subst r w'. rewrite deploy_block_eq.
  destruct (path_exists (snapshot_path id) w) eqn:E.
  - right. split; [reflexivity|]. unfold generator_result.
    destruct (tool grub_mkconfig_cmd) as [[|p|p]|]; simpl;
      rewrite <- app_assoc; repeat split.
  - left. simpl. repeat split.
Qed.

(** ** Complete stores *)

Lemma completeb_complete svs : completeb svs = true -> complete svs.
Proof.
  unfold completeb. rewrite forallb_forall. intros H k k' id Hk.
  apply exists_in_spec in Hk. destruct Hk as [sv [Hin Hp]].
  specialize (H sv Hin). rewrite Hp in H.
  apply andb_prop in H. destruct H as [H Hb].
  apply andb_prop in H. destruct H as [H He].
  apply andb_prop in H. destruct H as [Hr Hv].
  destruct k'; assumption.
Qed.

(** ** The retention rule of [gc]'s block *)

Lemma remove_path_absent p svs :
  exists_in svs p = false -> remove_path p svs = svs.
Proof.
  unfold exists_in, remove_path. induction svs as [|sv svs IH]; simpl; auto.
  destruct (has_path p sv); simpl; [discriminate|].
  intros H. now rewrite IH.
Qed.

Lemma run_delete p w :
  exists w',
    run (delete_cmd p) false false w = (Ok None, w') /\
    subvols w' = remove_path p (subvols w).
Proof.
  rewrite (run_eq _ false false _ (external_delete p _)).
  unfold delete_effect.
  change (path_exists p (add_line (Echo (delete_cmd p)) w))
    with (exists_in (subvols w) p).
  destruct (exists_in (subvols w) p) eqn:E; simpl.
  - eexists. split; reflexivity.
  - eexists. split; [reflexivity|]. simpl. now rewrite remove_path_absent.
Qed.

Lemma remove_bundle_spec sid svs sv :
  In sv (remove_bundle sid svs) <->
  In sv svs /\ forall k, sv_path sv <> Member k sid.
Proof.
  unfold remove_bundle, boot_path, etc_path, var_path, snapshot_path.
  rewrite !remove_path_spec. split.
  - intros [[[[H Hr] Hv] He] Hb]. split; auto. intros []; assumption.
  - intros [H Hk]. repeat split; auto.
Qed.

Lemma gc_round_done keep sid w :
  exists w',
    gc_round keep sid w = (Ok tt, w') /\
    subvols w' = gc_round_store keep (subvols w) sid.
Proof.
  unfold gc_round, gc_round_store. destruct (negb (mem sid keep)).
  - destruct (run_delete (snapshot_path sid) w) as [w1 [E1 S1]].
    rewrite (bind_ok _ _ _ E1).
    destruct (run_delete (var_path sid) w1) as [w2 [E2 S2]].
    rewrite (bind_ok _ _ _ E2).
    destruct (run_delete (etc_path sid) w2) as [w3 [E3 S3]].
    rewrite (bind_ok _ _ _ E3).
    destruct (run_delete (boot_path sid) w3) as [w4 [E4 S4]].
    rewrite (bind_ok _ _ _ E4).
    exists w4. split; [reflexivity|].
    unfold remove_bundle. now rewrite S4, S3, S2, S1.
  - exists w. split; reflexivity.
Qed.

Lemma gc_loop_done keep ids :
  forall w,
    exists w',
      for_each ids (gc_round keep) w = (Ok tt, w') /\
      subvols w' = fold_left (gc_round_store keep) ids (subvols w).
Proof.
  induction ids as [|sid ids IH]; intros w; simpl.
  - exists w. split; reflexivity.
  - destruct (gc_round_done keep sid w) as [w1 [E1 S1]].
    rewrite (bind_ok _ _ _ E1).
    destruct (IH w1) as [w' [E S]]. exists w'. split; [exact E|].
    now rewrite S, S1.
Qed.

Lemma gc_loop_store keep ids :
  forall svs sv,
    In sv (fold_left (gc_round_store keep) ids svs) <->
    In sv svs /\
    forall sid k, In sid ids -> mem sid keep = false -> sv_path sv <> Member k sid.
Proof.
  induction ids as [|sid ids IH]; intros svs sv; simpl.
  - split; [intros H; split; auto; intros ? ? [] | intros [H _]; exact H].
  - rewrite IH. unfold gc_round_store at 1.
    destruct (mem sid keep) eqn:E; simpl.
    + split; intros [H1 H2]; split; auto.
      intros s k [<-|Hs] Hm; [congruence | eauto].
    + rewrite remove_bundle_spec.
      split.
      * intros [[H1 H3] H2]. split; auto.
        intros s k [<-|Hs] Hm; [apply H3 | eauto].
      * intros [H1 H2]. split; [split; auto|]; eauto.
Qed.

Lemma py_range_spec a b x : In x (py_range a b) <-> a <= x < b.
Proof.
  unfold py_range. rewrite in_map_iff. split.
  - intros [i [<- Hi]]. apply in_seq in Hi. lia.
  - intros H. exists (Z.to_nat (x - a)). split; [lia|].
    apply in_seq. lia.
Qed.

Lemma mem_spec x s : mem x s = true <-> In x s.
Proof.
  unfold mem. rewrite existsb_exists. split.
  - intros [y [Hy E]]. apply Z.eqb_eq in E. now subst.
  - intros H. exists x. split; auto. apply Z.eqb_refl.
Qed.

Lemma keep_spec d sid :
  mem sid (py_range (d - 2) (d + 3) ++ [d]) = true <-> d - 2 <= sid <= d + 2.
Proof.
  rewrite mem_spec, in_app_iff, py_range_spec. simpl. lia.
Qed.

Lemma insert_sorted_In x l y : In y (insert_sorted x l) <-> y = x \/ In y l.
Proof.
  induction l as [|z l IH]; simpl.
  - intuition.
  - destruct (x <=? z); simpl; rewrite ?IH; intuition.
Qed.

Lemma sorted_In l y : In y (sorted l) <-> In y l.
Proof.
  unfold sorted. induction l as [|x l IH]; simpl; [tauto|].
  rewrite insert_sorted_In, IH. intuition.
Qed.

Lemma gc_candidates_spec svs id :
  In id (gc_candidates svs) <-> In id (rootfs_ids svs) /\ id <> 0.
Proof.
  unfold gc_candidates. rewrite sorted_In, filter_In.
  rewrite negb_true_iff, Z.eqb_neq. tauto.
Qed.

Lemma run_get_default w :
  run get_default_cmd true true w =
  (Ok (Some [W "ID"; W "path"; P (default_subvol w)]),
   add_trace get_default_cmd (Exit 0) (add_line (Echo get_default_cmd) w)).
Proof.
  assert (E : external get_default_cmd (add_line (Echo get_default_cmd) w)
              = (Exit 0, [W "ID"; W "path"; P (default_subvol w)],
                 add_line (Echo get_default_cmd) w)) by reflexivity.
  rewrite (run_eq _ true true _ E). reflexivity.
Qed.

(** X1.  The block of [gc], run on its own with the deployed snapshot [d]:
    it completes, and it leaves exactly the members that were there and do
    not belong to a collected ID; ID 0 and the IDs [d - 2 .. d + 2] keep all
    the members they had. *)
Theorem gc_block_retention (w : world) (k : kind) (d : Z) :
  default_subvol w = Member k d ->
  exists w',
    gc_block w = (Ok tt, w') /\
    (forall sv,
        In sv (subvols w') <->
        In sv (subvols w) /\
        forall k' id, sv_path sv = Member k' id -> ~ collected d (subvols w) id).
Proof.
  intros Hd. unfold gc_block.
  change [W "btrfs"; W "subvolume"; W "get-default"; P (Abs "/")]
    with get_default_cmd.
  rewrite (bind_ok _ _ _ (run_get_default w)).
  unfold trailing_id. simpl last. rewrite Hd.
  unfold bind at 1, ret at 1. unfold bind at 1.
  set (w1 := add_trace get_default_cmd (Exit 0)
               (add_line (Echo get_default_cmd) w)).
  change (subvols w1) with (subvols w).
  destruct (gc_loop_done (py_range (d - 2) (d + 3) ++ [d])
              (gc_candidates (subvols w)) w1) as [w' [E S]].
  exists w'. split.
  - exact E.
  - intros sv. rewrite S. change (subvols w1) with (subvols w).
    rewrite gc_loop_store. split; intros [H1 H2]; split; auto.
    + intros k' id Hp [Hin [Hne Hout]].
      apply (H2 id k'); auto.
      * apply gc_candidates_spec. auto.
      * destruct (mem id (py_range (d - 2) (d + 3) ++ [d])) eqn:Em; auto.
        apply keep_spec in Em. contradiction.
    + intros sid k' Hin Hm Hp. apply (H2 k' sid Hp).
      apply gc_candidates_spec in Hin. destruct Hin as [Hin Hne].
      split; [exact Hin|]. split; [exact Hne|].
      intros Hk. apply keep_spec in Hk. congruence.
Qed.

(** ** The loop of [tree_run] *)

Lemma external_chroot sid cmd w :
  external (chroot_cmd sid cmd) w = (tool (chroot_cmd sid cmd), [], w).
Proof. reflexivity. Qed.

(** One round of the loop, by how the command ends in that snapshot. *)
Lemma tree_run_loop_cons fail_fast cmd sid rest w :
  let c := chroot_cmd sid cmd in
  let w0 := add_line (Echo c) (add_line (Print (MsgTreeRunOn sid)) w) in
  tree_run_loop fail_fast cmd (sid :: rest) w =
  match tool c with
  | Exit 0 => tree_run_loop fail_fast cmd rest (add_trace c (Exit 0) w0)
  | Exit n =>
      (Raise (SystemExit 1),
       add_line (Log "ERROR" (MsgCommandFailed c)) (add_trace c (Exit n) w0))
  | SpawnError =>
      if fail_fast
      then (Raise (SystemExit 1),
            add_line (Log "ERROR" (MsgText "tree-run failed (fail-fast enabled)"))
              (add_trace c SpawnError w0))
      else tree_run_loop fail_fast cmd rest
             (add_line (Print (MsgTreeRunFailed sid)) (add_trace c SpawnError w0))
  end.
Proof.
  intros c w0. unfold tree_run_loop at 1. simpl for_each.
  fold (chroot_cmd sid cmd). fold c.
  unfold bind at 1. unfold bind at 1. unfold emit at 1.
  unfold try_except. unfold bind at 1.
  rewrite (run_eq _ true false _ (external_chroot sid cmd _)).
  fold c. fold w0.
  destruct (tool c) as [[|p|p]|]; simpl; try reflexivity.
  destruct fail_fast; reflexivity.
Qed.

(** X2.  With or without [--fail-fast], the loop ends at the first snapshot in
    which the command exits with a non-zero status: the IDs after it are
    not visited. *)
Theorem tree_run_loop_aborts fail_fast cmd pre sid post n :
  Forall (fun x => tool (chroot_cmd x cmd) = Exit 0) pre ->
  tool (chroot_cmd sid cmd) = Exit n -> n <> 0 ->
  forall w,
    fst (tree_run_loop fail_fast cmd (pre ++ sid :: post) w) = Raise (SystemExit 1) /\
    trace (snd (tree_run_loop fail_fast cmd (pre ++ sid :: post) w))
    = trace w ++ map (fun x => (chroot_cmd x cmd, Exit 0)) pre
              ++ [(chroot_cmd sid cmd, Exit n)].
Proof.
  intros Hpre Hsid Hn. induction Hpre as [|x pre Hx Hpre IH]; intros w.
  - simpl app. rewrite tree_run_loop_cons. rewrite Hsid.
    destruct n as [|p|p]; [contradiction| |]; split; reflexivity.
  - simpl app. rewrite tree_run_loop_cons. rewrite Hx.
    destruct (IH (add_trace (chroot_cmd x cmd) (Exit 0)
                    (add_line (Echo (chroot_cmd x cmd))
                       (add_line (Print (MsgTreeRunOn x)) w)))) as [E1 E2].
    split; [exact E1|]. rewrite E2. simpl. now rewrite <- app_assoc.
Qed.

(** X3.  When the command can be started in every snapshot, the exit status of
    the loop is a failure exactly when the command failed somewhere. *)
Theorem tree_run_loop_status fail_fast cmd ids :
  Forall (fun x => tool (chroot_cmd x cmd) <> SpawnError) ids ->
  forall w,
    exit_status (fst (tree_run_loop fail_fast cmd ids w)) <> 0 <->
    Exists (fun x => tool (chroot_cmd x cmd) <> Exit 0) ids.
Proof.
  intros H. induction H as [|x ids Hx Hids IH]; intros w.
  - simpl. split; [intros E; now elim E | intros E; inversion E].
  - rewrite tree_run_loop_cons.
    destruct (tool (chroot_cmd x cmd)) as [[|p|p]|] eqn:E.
    + rewrite IH. split; intros Hex.
      * now apply Exists_cons_tl.
      * inversion Hex; subst; [congruence | assumption].
    + simpl. split; [intros _ | intros _; discriminate].
      apply Exists_cons_hd. congruence.
    + simpl. split; [intros _ | intros _; discriminate].
      apply Exists_cons_hd. congruence.
    + contradiction.
Qed.


(** ** The walk over a lineage tree *)

Lemma list_Z_eqb_eq a : forall b, list_Z_eqb a b = true -> a = b.
Proof.
  induction a as [|x a IH]; intros [|y b] H; simpl in H; try discriminate; auto.
  apply andb_prop in H. destruct H as [H1 H2].
  apply Z.eqb_eq in H1. subst. f_equal. auto.
Qed.

Lemma get_children_world id w : snd (get_children id w) = w.
Proof.
  unfold get_children.
  destruct (find_subvol (snapshot_path id) (subvols w)); reflexivity.
Qed.

Lemma shapedb_node w id ks :
  shapedb w (Node id ks) = true ->
  get_children id w = (Ok (map root ks), w) /\ forallb (shapedb w) ks = true.
Proof.
  simpl. intros H. pose proof (get_children_world id w) as Hw.
  destruct (get_children id w) as [[ids|e| | |] w1]; simpl in *; try discriminate.
  apply andb_prop in H. destruct H as [H1 H2].
  apply list_Z_eqb_eq in H1. subst. auto.
Qed.

Lemma list_sum_app a b : list_sum (a ++ b) = (list_sum a + list_sum b)%nat.
Proof. induction a as [|x a IH]; simpl; [reflexivity | rewrite IH; lia]. Qed.

(** The loop of [_walk_tree], started on a stack of roots of trees of the
    store with more fuel than the trees have nodes, ends with the trees
    visited from the top of the stack down. *)
Lemma walk_loop_trees w fuel :
  forall ts visited,
    forallb (shapedb w) ts = true ->
    (list_sum (map size ts) < fuel)%nat ->
    walk_loop fuel (map root ts) visited w
    = (Ok (visited ++ List.concat (rev (map last_child_first ts))), w).
Proof.
  induction fuel as [|fuel IH]; intros ts visited Hs Hf; [lia|].
  destruct ts as [|t0 ts0] using rev_ind.
  - simpl. now rewrite app_nil_r.
  - clear IHts0. rewrite forallb_app in Hs. apply andb_prop in Hs.
    destruct Hs as [Hs0 Ht]. simpl in Ht. rewrite andb_true_r in Ht.
    destruct t0 as [id ks]. destruct (shapedb_node _ _ _ Ht) as [Hc Hk].
    rewrite map_app, list_sum_app in Hf. simpl in Hf.
    simpl walk_loop. rewrite map_app, rev_app_distr.
    cbn [map rev app root]. rewrite (bind_ok _ _ _ Hc).
    rewrite rev_involutive, <- map_app.
    rewrite IH.
    + f_equal. f_equal. rewrite <- app_assoc. f_equal.
      rewrite !map_app, !rev_app_distr. simpl.
      rewrite concat_app. reflexivity.
    + rewrite forallb_app, Hs0, Hk. reflexivity.
    + rewrite map_app, list_sum_app. lia.
Qed.

Lemma walk_tree_of_tree w t fuel :
  shapedb w t = true -> (size t < fuel)%nat ->
  _walk_tree fuel (root t) w = (Ok (last_child_first t), w).
Proof.
  intros Hs Hf. unfold _walk_tree.
  change [root t] with (map root [t]).
  rewrite walk_loop_trees.
  - simpl. now rewrite app_nil_r.
  - simpl. now rewrite Hs.
  - simpl. lia.
Qed.

Lemma tree_induction (Q : tree -> Prop) :
  (forall id ks, Forall Q ks -> Q (Node id ks)) -> forall t, Q t.
Proof.
  intros H. fix IH 1. intros [id ks]. apply H.
  induction ks as [|k ks IHks]; constructor; [apply IH | exact IHks].
Qed.

Lemma Permutation_concat_rev {A} (l : list (list A)) :
  Permutation (List.concat (rev l)) (List.concat l).
Proof.
  induction l as [|a l IH]; simpl; [constructor|].
  rewrite concat_app. simpl. rewrite app_nil_r.
  eapply Permutation_trans; [apply Permutation_app_comm|].
  now apply Permutation_app_head.
Qed.

Lemma Permutation_concat_map {A B} (f g : A -> list B) l :
  Forall (fun x => Permutation (f x) (g x)) l ->
  Permutation (List.concat (map f l)) (List.concat (map g l)).
Proof.
  induction 1; simpl; [constructor|]. now apply Permutation_app.
Qed.

Lemma last_child_first_nodes t : Permutation (last_child_first t) (nodes t).
Proof.
  induction t as [id ks IH] using tree_induction. simpl. constructor.
  eapply Permutation_trans; [apply Permutation_concat_rev|].
  now apply Permutation_concat_map.
Qed.

(** X4.  [_walk_tree] on a store whose lineage under the root is the finite tree
    [t] returns, given more fuel than [t] has nodes, and leaves the world as
    it was.  It visits the root first and then, last child first, every
    subtree in the same manner: each node of [t] is visited as often as it
    occurs in [t], so exactly once when the IDs of [t] are distinct. *)
Theorem walk_tree_visits_every_node (w : world) (t : tree) (fuel : nat) :
  shapedb w t = true ->
  (size t < fuel)%nat ->
  _walk_tree fuel (root t) w = (Ok (last_child_first t), w) /\
  hd_error (last_child_first t) = Some (root t) /\
  Permutation (last_child_first t) (nodes t) /\
  (NoDup (nodes t) -> NoDup (last_child_first t)).
Proof.
  intros Hs Hf. split; [now apply walk_tree_of_tree|].
  split; [destruct t; reflexivity|].
  split; [apply last_child_first_nodes|].
  intros Hn. eapply Permutation_NoDup; [|exact Hn].
  apply Permutation_sym, last_child_first_nodes.
Qed.

(** ** [tree_run] on a lineage tree *)

Lemma tree_run_loop_all_ok fail_fast cmd ids :
  Forall (fun x => tool (chroot_cmd x cmd) = Exit 0) ids ->
  forall w,
    fst (tree_run_loop fail_fast cmd ids w) = Ok tt /\
    trace (snd (tree_run_loop fail_fast cmd ids w))
    = trace w ++ map (fun x => (chroot_cmd x cmd, Exit 0)) ids /\
    subvols (snd (tree_run_loop fail_fast cmd ids w)) = subvols w.
Proof.
  induction 1 as [|x ids Hx Hids IH]; intros w.
  - simpl. rewrite app_nil_r. auto.
  - rewrite tree_run_loop_cons, Hx.
    destruct (IH (add_trace (chroot_cmd x cmd) (Exit 0)
                    (add_line (Echo (chroot_cmd x cmd))
                       (add_line (Print (MsgTreeRunOn x)) w)))) as [E1 [E2 E3]].
    split; [exact E1|]. split; [|exact E3].
    rewrite E2. simpl. now rewrite <- app_assoc.
Qed.

Lemma tree_run_unfold fuel r x ws w :
  tree_run fuel (I r :: x :: ws) w =
  (ids <- _walk_tree fuel r ;;
   tree_run_loop (contains (W "--fail-fast") (x :: ws))
     (tree_run_cmd (x :: ws)) ids) w.
Proof.
  unfold tree_run, tree_run_cmd.
  replace ((List.length (I r :: x :: ws) <? 2)%nat) with false
    by (symmetry; apply Nat.ltb_ge; simpl; lia).
  unfold item. simpl nth. unfold int.
  unfold bind at 1, ret at 1.
  assert (Hc : contains (W "--fail-fast") (I r :: x :: ws)
               = contains (W "--fail-fast") (x :: ws)).
  { unfold contains. simpl.
    destruct (word_eq_dec (I r) (W "--fail-fast")); [discriminate | reflexivity]. }
  rewrite Hc.
  destruct (contains (W "--fail-fast") (x :: ws)); [|reflexivity].
  simpl remove_first at 1.
  destruct (word_eq_dec (I r) (W "--fail-fast")); [discriminate | reflexivity].
Qed.

(** X5.  [tree-run <root> <cmd...>] on a store whose lineage under the root is
    the tree [t], when the command succeeds in every snapshot of [t]: the
    operation completes, it has run the command (its words without the
    first [--fail-fast]) exactly once per visit of the walk, in the walk's
    order, and nothing else; the store is as it was. *)
Theorem tree_run_runs_in_every_snapshot
    (w : world) (t : tree) (fuel : nat) (x : word) (ws : list word) :
  shapedb w t = true ->
  (size t < fuel)%nat ->
  (forall id, In id (nodes t) ->
              tool (chroot_cmd id (tree_run_cmd (x :: ws))) = Exit 0) ->
  fst (tree_run fuel (I (root t) :: x :: ws) w) = Ok tt /\
  trace (snd (tree_run fuel (I (root t) :: x :: ws) w))
  = trace w ++ map (fun id => (chroot_cmd id (tree_run_cmd (x :: ws)), Exit 0))
                   (last_child_first t) /\
  subvols (snd (tree_run fuel (I (root t) :: x :: ws) w)) = subvols w.
Proof.
  intros Hs Hf Hok. rewrite tree_run_unfold.
  rewrite (bind_ok _ _ _ (walk_tree_of_tree _ _ Hs Hf)).
  apply tree_run_loop_all_ok. apply Forall_forall. intros id Hid.
  apply Hok. eapply Permutation_in; [apply last_child_first_nodes | exact Hid].
Qed.


(** ** Argument checks *)

Lemma usage_refused s w : refused (@usage unit s w) w.
Proof. exists s. reflexivity. Qed.

Lemma short_args (args : list word) :
  (List.length args < 2)%nat -> (List.length args <? 2)%nat = true.
Proof. intros H. now apply Nat.ltb_lt. Qed.

(** X6.  Every action that counts its arguments refuses a call with the wrong
    number of them: it logs its usage line and exits with status 1 before
    it reads an ID, spawns a program or touches the store or a file. *)
Theorem wrong_argument_count_is_refused
    (fuel : nat) (editor : string) (args : list word) (d : disk) (w : world) :
  (List.length args <> 1%nat ->
     refused (clone args w) w /\
     refused (clone_tree fuel args w) w /\
     refused (branch args w) w /\
     refused (deploy args w) w /\
     refused (chroot args w) w /\
     refused (upgrade args w) w /\
     refused (fst (edit_conf editor args d w)) w /\
     snd (edit_conf editor args d w) = d) /\
  (List.length args <> 2%nat -> refused (ubranch args w) w) /\
  ((List.length args < 2)%nat ->
     refused (run_in_snapshot args w) w /\
     refused (tree_run fuel args w) w /\
     refused (pkg_install args w) w /\
     refused (pkg_remove args w) w /\
     refused (fst (set_desc args d w)) w /\
     snd (set_desc args d w) = d).
Proof.
  split; [|split].
  - intros H. destruct args as [|a [|b args]]; [|simpl in H; congruence|];
      repeat split; apply usage_refused.
  - intros H. destruct args as [|a [|b [|c args]]]; [| |simpl in H; congruence|];
      apply usage_refused.
  - intros H. apply short_args in H.
    unfold run_in_snapshot, tree_run, pkg_install, pkg_remove, set_desc, no_files.
    rewrite H. repeat split; apply usage_refused.
Qed.

(** ** [main] *)

Lemma die_eq {A} m c w :
  @die A m c w = (Raise (SystemExit c), add_line (Log "ERROR" m) w).
Proof. reflexivity. Qed.

Lemma guarded_exits a d w e :
  fst (fst (guarded a d w)) = Raise e -> exists c, e = SystemExit c.
Proof.
  unfold guarded. destruct (a d w) as [[r w1] d1].
  destruct r as [u|x| | |]; simpl; try discriminate.
  destruct x; simpl; intros H; injection H as <-; eauto.
Qed.

(** X7.  Whatever the command line, the user, the store and the files, [main]
    lets no Python exception other than [SystemExit] escape.  The [try]
    statement around the routed call turns [KeyboardInterrupt] into the line
    "Interrupted by user" and exit status 130 and every other exception that
    is an [Exception] into the line "Fatal: ..." and exit status 1, and lets
    [SystemExit] pass with its code; for root, [main] with a routed command
    is that statement around the routed action. *)
Theorem main_only_exits
    (fuel : nat) (euid : Z) (editor : string) (cmd : option string)
    (args : list word) (d : disk) (w : world) :
  (forall e,
      fst (fst (main fuel euid editor cmd args d w)) = Raise e ->
      exists code, e = SystemExit code) /\
  (forall (a : action) e w1 d1,
      a d w = ((Raise e, w1), d1) ->
      guarded a d w =
      match e with
      | SystemExit code => ((Raise (SystemExit code), w1), d1)
      | KeyboardInterrupt =>
          ((Raise (SystemExit 130),
            add_line (Log "ERROR" (MsgText "Interrupted by user")) w1), d1)
      | _ => ((Raise (SystemExit 1), add_line (Log "ERROR" (fatal e)) w1), d1)
      end) /\
  (forall c a,
      router fuel editor c args = Some a ->
      main fuel 0 editor (Some c) args d w = guarded a d w).
Proof.
  split; [|split].
  - intros e. unfold main. destruct cmd as [cmd|].
    + unfold require_root. destruct (euid =? 0); simpl.
      * destruct (router fuel editor cmd args) as [a|].
        -- apply guarded_exits.
        -- simpl. intros H. injection H as <-. eauto.
      * intros H. injection H as <-. eauto.
    + simpl. intros H. injection H as <-. eauto.
  - intros a e w1 d1 H. unfold guarded. rewrite H. destruct e; reflexivity.
  - intros c a H. unfold main, require_root. simpl. now rewrite H.
Qed.

(** X8.  Without a command [main] prints the two usage lines; with one, a user
    other than root is turned away before the command is even looked up,
    [help] included; and root is told when the command is unknown.  Each
    time the exit status is 1 and nothing was spawned or changed. *)
Theorem main_refusals
    (fuel : nat) (euid : Z) (editor : string) (cmd : string)
    (args : list word) (d : disk) (w : world) :
  main fuel euid editor None args d w
  = ((Raise (SystemExit 1),
      add_line (Print (MsgText "Run `ast help` for the full cheat sheet"))
        (add_line (Print (MsgText "ast <command> [args...]")) w)), d) /\
  (euid <> 0 ->
   main fuel euid editor (Some cmd) args d w
   = ((Raise (SystemExit 1),
       add_line (Log "ERROR" (MsgText "This command must be run as root")) w), d)) /\
  (router fuel editor cmd args = None ->
   main fuel 0 editor (Some cmd) args d w
   = ((Raise (SystemExit 1),
       add_line (Log "ERROR" (MsgText (String.append "Unknown command: " cmd))) w),
      d)).
Proof.
  split; [reflexivity|]. split.
  - intros H. unfold main, require_root.
    apply Z.eqb_neq in H. rewrite H. reflexivity.
  - intros H. unfold main, require_root. simpl. rewrite H. reflexivity.
Qed.


Lemma branch_raises parent w :
  lock_holder w = None ->
  branch [I parent] w = (Raise TypeError, set_next_fd (S (S (next_fd w))) w).
Proof.
  intros H. unfold branch, int.
  unfold bind at 1, ret at 1.
  rewrite (bind_ok _ _ _ (next_snapshot_id_free _ H)).
  assert (H1 : lock_holder (set_next_fd (S (next_fd w)) w) = None) by exact H.
  rewrite (bind_raise _ _ _ (clone_raises parent _ H1)). reflexivity.
Qed.

Lemma untouched_set_next_fd n w : untouched w (set_next_fd n w).
Proof. unfold untouched. repeat split. Qed.

Lemma untouched_refl w : untouched w w.
Proof. unfold untouched. repeat split. Qed.

(** A routed action that ends with [TypeError] makes [main] exit with
    status 1 after the line "Fatal: ..." *)
Lemma main_fatal fuel editor cmd args m d w w1 :
  router fuel editor cmd args = Some (no_files m) ->
  m w = (Raise TypeError, w1) ->
  main fuel 0 editor (Some cmd) args d w
  = ((Raise (SystemExit 1), add_line (Log "ERROR" (fatal TypeError)) w1), d).
Proof.
  intros Hr Hm. unfold main, require_root. simpl. rewrite Hr.
  unfold guarded, no_files. rewrite Hm. reflexivity.
Qed.

(** X9.  For root, every call of the command line that reaches a
    [with lock():] statement ([clone], [clone-tree], [branch], [deploy] with
    an ID, [ubranch] with a parent and an ID, [base-update], [gc]) ends with
    exit status 1 after the line "Fatal: ...": no program was spawned and
    the store, the default subvolume, the mounts and the files are as
    before. *)
Theorem main_locked_calls_fail
    (fuel : nat) (editor : string) (cmd : string) (args : list word)
    (d : disk) (w : world) :
  locked_call cmd args = true ->
  lock_holder w = None ->
  exists w1,
    main fuel 0 editor (Some cmd) args d w
    = ((Raise (SystemExit 1), add_line (Log "ERROR" (fatal TypeError)) w1), d) /\
    untouched w w1.
Proof.
  unfold locked_call. intros H Hl.
  apply orb_prop in H. destruct H as [H|H];
    [apply orb_prop in H; destruct H as [H|H]|].
  - apply String.eqb_eq in H. subst cmd. exists w. split.
    + apply main_fatal with (m := base_update); [reflexivity|].
      apply base_update_raises.
    + apply untouched_refl.
  - apply String.eqb_eq in H. subst cmd. exists w. split.
    + apply main_fatal with (m := gc); [reflexivity | apply gc_raises].
    + apply untouched_refl.
  - destruct args as [|a [|b [|c args]]]; try discriminate.
    + destruct a as [s|z|p]; try discriminate.
      repeat (apply orb_prop in H; destruct H as [H|H]);
        apply String.eqb_eq in H; subst cmd.
      * exists (set_next_fd (S (next_fd w)) w). split.
        -- apply main_fatal with (m := clone [I z]); [reflexivity|].
           now apply clone_raises.
        -- apply untouched_set_next_fd.
      * exists w. split.
        -- apply main_fatal with (m := clone_tree fuel [I z]); [reflexivity|].
           apply clone_tree_raises.
        -- apply untouched_refl.
      * exists (set_next_fd (S (S (next_fd w))) w). split.
        -- apply main_fatal with (m := branch [I z]); [reflexivity|].
           now apply branch_raises.
        -- apply untouched_set_next_fd.
      * exists w. split.
        -- apply main_fatal with (m := deploy [I z]); [reflexivity|].
           apply deploy_raises.
        -- apply untouched_refl.
    + assert (Hb : exists z, b = I z /\ String.eqb cmd "ubranch" = true).
      { destruct b as [sb|z|pb]; destruct a; try discriminate; eauto. }
      destruct Hb as [z [-> Hc]]. apply String.eqb_eq in Hc. subst cmd.
      exists (set_next_fd (S (next_fd w)) w). split.
      * apply main_fatal with (m := ubranch [a; I z]); [reflexivity|].
        unfold ubranch. now apply clone_raises.
      * apply untouched_set_next_fd.
    + destruct a; destruct b; discriminate.
Qed.


(** ** A clone that stops half way *)

Lemma find_subvol_app_r svs svs' p :
  exists_in svs p = false -> find_subvol p (svs ++ svs') = find_subvol p svs'.
Proof.
  unfold exists_in, find_subvol. induction svs as [|sv svs IH]; simpl; auto.
  destruct (has_path p sv); simpl; [discriminate | exact IH].
Qed.

Lemma find_subvol_none_exists svs p :
  find_subvol p svs = None -> exists_in svs p = false.
Proof.
  unfold exists_in, find_subvol. induction svs as [|sv svs IH]; simpl; auto.
  destruct (has_path p sv); simpl; [discriminate | exact IH].
Qed.

(** X10.  When the second member of a four-member clone cannot be made, because
    its destination exists or its source is missing, the operation exits
    with status 1 and the first member, already made, stays: the bundle is
    left with one member.  A second attempt at the same destination is
    refused at once and changes nothing. *)
Theorem clone_block_leaves_partial_bundle (src dst : Z) (w : world) (r : subvol) :
  find_subvol (Member Rootfs src) (subvols w) = Some r ->
  exists_in (subvols w) (Member Rootfs dst) = false ->
  exists_in (subvols w) (Member Var dst) = true \/
  find_subvol (Member Var src) (subvols w) = None ->
  let w' := snd (clone_block src dst w) in
  fst (clone_block src dst w) = Raise (SystemExit 1) /\
  subvols w'
  = subvols w ++ [mkSubvol (Member Rootfs dst) (next_uuid w) (Some (sv_uuid r)) true] /\
  fst (clone_block src dst w') = Raise (SystemExit 1) /\
  subvols (snd (clone_block src dst w')) = subvols w'.
Proof.
  intros Hr Hd Hv w'.
  assert (E : fst (clone_block src dst w) = Raise (SystemExit 1) /\
              subvols (snd (clone_block src dst w))
              = subvols w ++ [mkSubvol (Member Rootfs dst) (next_uuid w)
                                (Some (sv_uuid r)) true]).
  { unfold clone_block.
    destruct (btrfs_snapshot_done (snapshot_path src) (snapshot_path dst) w Hd Hr)
      as [w1 [E1 [S1 _]]].
    rewrite (bind_ok _ _ _ E1).
    destruct (exists_in (subvols w) (Member Var dst)) eqn:Ex.
    - assert (H2 : path_exists (var_path dst) w1 = true).
      { rewrite path_exists_subvols, S1, exists_in_app.
        unfold var_path. now rewrite Ex. }
      rewrite (bind_raise _ _ _ (btrfs_snapshot_exists (var_path src) _ _ H2)).
      simpl. split; [reflexivity | exact S1].
    - destruct Hv as [Hv|Hv]; [discriminate|].
      assert (H2 : path_exists (var_path dst) w1 = false).
      { rewrite path_exists_subvols, S1, exists_in_snoc.
        unfold var_path. rewrite Ex. simpl.
        apply has_path_other. simpl. discriminate. }
      assert (H3 : find_subvol (var_path src) (subvols w1) = None).
      { rewrite S1, find_subvol_app_r by now apply find_subvol_none_exists.
        apply find_subvol_none. unfold exists_in. cbn [existsb].
        rewrite has_path_other; [reflexivity | simpl; discriminate]. }
      rewrite (bind_raise _ _ _ (btrfs_snapshot_no_source _ _ _ H2 H3)).
      simpl. split; [reflexivity | exact S1]. }
  destruct E as [E1 E2]. split; [exact E1|]. split; [exact E2|].
  assert (Hex : path_exists (snapshot_path dst) w' = true).
  { rewrite path_exists_subvols. subst w'. rewrite E2, exists_in_snoc.
    apply orb_true_iff. right. now apply has_path_true. }
  rewrite (clone_block_exists src dst w' Hex). split; reflexivity.
Qed.

(** ** Lineage after a clone *)

Lemma nodupb_NoDup l : nodupb l = true -> NoDup l.
Proof.
  induction l as [|x l IH]; simpl; [constructor|].
  intros H. apply andb_prop in H. destruct H as [H1 H2].
  constructor; auto. intros Hin.
  apply negb_true_iff in H1.
  assert (existsb (Nat.eqb x) l = true).
  { apply existsb_exists. exists x. split; auto. apply Nat.eqb_refl. }
  congruence.
Qed.

Lemma NoDup_map_injective {A B} (f : A -> B) l a b :
  NoDup (map f l) -> In a l -> In b l -> f a = f b -> a = b.
Proof.
  induction l as [|x l IH]; simpl; [contradiction|].
  intros Hn Ha Hb E. inversion Hn as [|y m Hx Hl]; subst.
  destruct Ha as [->|Ha], Hb as [->|Hb]; auto.
  - exfalso. apply Hx. rewrite E. now apply in_map.
  - exfalso. apply Hx. rewrite <- E. now apply in_map.
Qed.

Lemma find_subvol_in svs p s :
  find_subvol p svs = Some s -> In s svs /\ sv_path s = p.
Proof.
  unfold find_subvol. intros H. apply find_some in H.
  destruct H as [H1 H2]. split; auto. now apply has_path_true.
Qed.

Lemma child_ids_none u svs :
  (forall sv, In sv svs -> sv_parent_uuid sv <> Some u) -> child_ids u svs = [].
Proof.
  unfold child_ids. induction svs as [|sv svs IH]; simpl; auto.
  intros H. rewrite IH by auto.
  assert (E : is_child_of u sv = false).
  { unfold is_child_of. destruct (sv_parent_uuid sv) as [p|] eqn:Ep; auto.
    apply Nat.eqb_neq. intros ->. apply (H sv); auto. }
  now rewrite E.
Qed.

Lemma uuids_ok_below w sv :
  uuids_ok w = true -> In sv (subvols w) ->
  (sv_uuid sv < next_uuid w)%nat /\
  forall u, sv_parent_uuid sv = Some u -> (u < next_uuid w)%nat.
Proof.
  unfold uuids_ok. intros H Hin. apply andb_prop in H. destruct H as [_ H].
  rewrite forallb_forall in H. specialize (H sv Hin).
  apply andb_prop in H. destruct H as [H1 H2]. apply Nat.ltb_lt in H1.
  split; auto. intros u Hu. rewrite Hu in H2. now apply Nat.ltb_lt.
Qed.

Lemma find_subvol_head p sv svs :
  sv_path sv = p -> find_subvol p (sv :: svs) = Some sv.
Proof.
  intros H. unfold find_subvol. cbn [find].
  apply has_path_true in H. now rewrite H.
Qed.

(** X11.  In a store with all four members for every ID and sound identifiers,
    the four-member clone of an existing bundle into the next ID completes;
    afterwards the new ID is the last child of its source, after the
    children the source had, and has no children of its own. *)
Theorem clone_is_a_childless_child (src : Z) (w : world) :
  completeb (subvols w) = true ->
  uuids_ok w = true ->
  exists_in (subvols w) (Member Rootfs src) = true ->
  let dst := next_id (subvols w) in
  let w' := snd (clone_block src dst w) in
  fst (clone_block src dst w) = Ok tt /\
  (exists before,
     fst (get_children src w) = Ok before /\
     fst (get_children src w') = Ok (before ++ [dst])) /\
  fst (get_children dst w') = Ok [].
Proof.
  intros Hcb Hu Hs dst w'. pose proof (completeb_complete _ Hcb) as Hc.
  destruct (complete_find Rootfs src Hc Hs) as [r Hr].
  destruct (complete_find Var src Hc Hs) as [v Hv].
  destruct (complete_find Etc src Hc Hs) as [e He].
  destruct (complete_find Boot src Hc Hs) as [b Hb].
  destruct (clone_block_done src dst w Hr Hv He Hb) as [w1 [E [S1 _]]].
  { intros k. now apply next_id_fresh. }
  assert (Ew : w' = w1) by (subst w'; now rewrite E). rewrite Ew, E. clear Ew w'.
  destruct (find_subvol_in _ _ Hr) as [Ir Pr].
  destruct (find_subvol_in _ _ Hv) as [Iv Pv].
  destruct (find_subvol_in _ _ He) as [Ie Pe].
  destruct (find_subvol_in _ _ Hb) as [Ib Pb].
  assert (Hn : NoDup (map sv_uuid (subvols w))).
  { unfold uuids_ok in Hu. apply andb_prop in Hu. now apply nodupb_NoDup. }
  assert (Dv : Nat.eqb (sv_uuid v) (sv_uuid r) = false).
  { apply Nat.eqb_neq. intros E1.
    apply (NoDup_map_injective _ _ _ _ Hn Iv Ir) in E1. subst v. congruence. }
  assert (De : Nat.eqb (sv_uuid e) (sv_uuid r) = false).
  { apply Nat.eqb_neq. intros E1.
    apply (NoDup_map_injective _ _ _ _ Hn Ie Ir) in E1. subst e. congruence. }
  assert (Db : Nat.eqb (sv_uuid b) (sv_uuid r) = false).
  { apply Nat.eqb_neq. intros E1.
    apply (NoDup_map_injective _ _ _ _ Hn Ib Ir) in E1. subst b. congruence. }
  split; [reflexivity|]. split.
  - exists (child_ids (sv_uuid r) (subvols w)). split.
    + now rewrite (get_children_found src w Hr).
    + assert (Hr1 : find_subvol (snapshot_path src) (subvols w1) = Some r).
      { rewrite S1. now apply find_subvol_app_l. }
      rewrite (get_children_found src w1 Hr1). simpl. f_equal.
      rewrite S1, child_ids_app. f_equal.
      unfold cloned_bundle, child_ids, is_child_of. simpl.
      rewrite Nat.eqb_refl, Dv, De, Db. reflexivity.
  - assert (Hd1 : find_subvol (snapshot_path dst) (subvols w1)
                  = Some (mkSubvol (Member Rootfs dst) (next_uuid w)
                            (Some (sv_uuid r)) true)).
    { rewrite S1, find_subvol_app_r by now apply next_id_fresh.
      unfold cloned_bundle. apply find_subvol_head. reflexivity. }
    rewrite (get_children_found dst w1 Hd1). simpl. f_equal.
    rewrite S1, child_ids_app. rewrite child_ids_none.
    + unfold cloned_bundle, child_ids, is_child_of. simpl.
      destruct (uuids_ok_below w r Hu Ir) as [Lr _].
      destruct (uuids_ok_below w v Hu Iv) as [Lv _].
      destruct (uuids_ok_below w e Hu Ie) as [Le _].
      destruct (uuids_ok_below w b Hu Ib) as [Lb _].
      replace (Nat.eqb (sv_uuid r) (next_uuid w)) with false
        by (symmetry; apply Nat.eqb_neq; lia).
      replace (Nat.eqb (sv_uuid v) (next_uuid w)) with false
        by (symmetry; apply Nat.eqb_neq; lia).
      replace (Nat.eqb (sv_uuid e) (next_uuid w)) with false
        by (symmetry; apply Nat.eqb_neq; lia).
      replace (Nat.eqb (sv_uuid b) (next_uuid w)) with false
        by (symmetry; apply Nat.eqb_neq; lia).
      reflexivity.
    + intros sv Hin Hp. destruct (uuids_ok_below w sv Hu Hin) as [_ L].
      specialize (L _ Hp). lia.
Qed.


(** ** [chroot]: set-up, hand-over and teardown *)

(** [chroot] with an ID is its two loops around the hand-over; the test for
    a typed mount is false for each of the four tuples, so [/proc] is bound
    like the others. *)
Lemma chroot_eq snap_id w :
  chroot [I snap_id] w
  = (mount_all (chroot_binds (snapshot_path snap_id)) ;;
     run (rslave_cmd (snapshot_path snap_id)) true false ;;
     try_finally
       (chdir (snapshot_path snap_id) ;;
        execvp (shell_cmd (snapshot_path snap_id)))
       (teardown (snapshot_path snap_id))) w.
Proof. reflexivity. Qed.

Lemma run_bind_eq src tgt w :
  run (bind_cmd src tgt) true false w =
  match tool (bind_cmd src tgt) with
  | Exit 0 =>
      (Ok None,
       add_trace (bind_cmd src tgt) (Exit 0)
         (set_mounts (tgt :: mounts w) (add_line (Echo (bind_cmd src tgt)) w)))
  | Exit c =>
      (Raise (SystemExit 1),
       add_line (Log "ERROR" (MsgCommandFailed (bind_cmd src tgt)))
         (add_trace (bind_cmd src tgt) (Exit c)
            (add_line (Echo (bind_cmd src tgt)) w)))
  | SpawnError =>
      (Raise OSError,
       add_trace (bind_cmd src tgt) SpawnError
         (add_line (Echo (bind_cmd src tgt)) w))
  end.
Proof.
  assert (E : external (bind_cmd src tgt) (add_line (Echo (bind_cmd src tgt)) w)
              = (fst (mount_effect (bind_cmd src tgt) tgt
                        (add_line (Echo (bind_cmd src tgt)) w)), [],
                 snd (mount_effect (bind_cmd src tgt) tgt
                        (add_line (Echo (bind_cmd src tgt)) w)))) by reflexivity.
  rewrite (run_eq _ true false _ E). unfold mount_effect.
  destruct (tool (bind_cmd src tgt)) as [c|]; [|reflexivity].
  destruct c; reflexivity.
Qed.

Lemma mount_all_ok bs :
  Forall (fun b => tool (bind_cmd (fst b) (snd b)) = Exit 0) bs ->
  forall w, exists w1,
    mount_all bs w = (Ok tt, w1) /\
    mounts w1 = rev (map snd bs) ++ mounts w /\
    trace w1 = trace w ++ succeeded (bind_cmds bs) /\
    subvols w1 = subvols w.
Proof.
  induction 1 as [|b bs Hb Hbs IH]; intros w.
  - exists w. simpl. rewrite app_nil_r. auto.
  - unfold mount_all. cbn [for_each].
    unfold bind at 1. unfold bind at 1. rewrite run_bind_eq, Hb.
    unfold ret at 1.
    destruct (IH (add_trace (bind_cmd (fst b) (snd b)) (Exit 0)
                    (set_mounts (snd b :: mounts w)
                       (add_line (Echo (bind_cmd (fst b) (snd b))) w))))
      as [w1 [E [Hm [Ht Hs]]]].
    exists w1. split; [exact E|]. split; [|split].
    + rewrite Hm. simpl. now rewrite <- app_assoc.
    + rewrite Ht. simpl. now rewrite <- app_assoc.
    + rewrite Hs. reflexivity.
Qed.

Lemma mount_all_fails pre b post c :
  Forall (fun b => tool (bind_cmd (fst b) (snd b)) = Exit 0) pre ->
  tool (bind_cmd (fst b) (snd b)) = Exit c -> c <> 0 ->
  forall w, exists w1,
    mount_all (pre ++ b :: post) w = (Raise (SystemExit 1), w1) /\
    mounts w1 = rev (map snd pre) ++ mounts w /\
    trace w1 = trace w ++ succeeded (bind_cmds pre)
                 ++ [(bind_cmd (fst b) (snd b), Exit c)] /\
    subvols w1 = subvols w.
Proof.
  intros Hpre Hb Hc. induction Hpre as [|a pre Ha Hpre IH]; intros w.
  - unfold mount_all. cbn [app for_each].
    unfold bind at 1. unfold bind at 1. rewrite run_bind_eq, Hb.
    destruct c; [congruence| |]; eexists; (split; [reflexivity|]); auto.
  - unfold mount_all. cbn [app for_each].
    unfold bind at 1. unfold bind at 1. rewrite run_bind_eq, Ha.
    unfold ret at 1.
    destruct (IH (add_trace (bind_cmd (fst a) (snd a)) (Exit 0)
                    (set_mounts (snd a :: mounts w)
                       (add_line (Echo (bind_cmd (fst a) (snd a))) w))))
      as [w1 [E [Hm [Ht Hs]]]].
    exists w1. split; [exact E|]. split; [|split].
    + rewrite Hm. simpl. now rewrite <- app_assoc.
    + rewrite Ht. simpl. now rewrite <- !app_assoc.
    + rewrite Hs. reflexivity.
Qed.


Lemma run_rslave_eq root w :
  run (rslave_cmd root) true false w =
  match tool (rslave_cmd root) with
  | Exit c =>
      if negb (c =? 0)
      then (Raise (SystemExit 1),
            add_line (Log "ERROR" (MsgCommandFailed (rslave_cmd root)))
              (add_trace (rslave_cmd root) (Exit c)
                 (add_line (Echo (rslave_cmd root)) w)))
      else (Ok None,
            add_trace (rslave_cmd root) (Exit c)
              (add_line (Echo (rslave_cmd root)) w))
  | SpawnError =>
      (Raise OSError,
       add_trace (rslave_cmd root) SpawnError
         (add_line (Echo (rslave_cmd root)) w))
  end.
Proof.
  assert (E : external (rslave_cmd root) (add_line (Echo (rslave_cmd root)) w)
              = (tool (rslave_cmd root), [],
                 add_line (Echo (rslave_cmd root)) w)) by reflexivity.
  rewrite (run_eq _ true false _ E).
  destruct (tool (rslave_cmd root)); reflexivity.
Qed.

Lemma remove_first_path_head p ps : remove_first_path p (p :: ps) = ps.
Proof. simpl. destruct (path_eq_dec p p); congruence. Qed.

Lemma remove_first_path_absent p ps :
  existsb (fun q => if path_eq_dec q p then true else false) ps = false ->
  remove_first_path p ps = ps.
Proof.
  induction ps as [|q ps IH]; simpl; auto.
  destruct (path_eq_dec q p); simpl; [discriminate|].
  intros H. now rewrite IH.
Qed.

(** [umount] is run without [check]: the call returns whether or not the
    path was mounted. *)
Lemma run_umount_eq p w :
  run (umount_cmd p) false false w =
  (Ok None,
   add_trace (umount_cmd p) (umount_status p w)
     (set_mounts (remove_first_path p (mounts w))
        (add_line (Echo (umount_cmd p)) w))).
Proof.
  assert (E : external (umount_cmd p) (add_line (Echo (umount_cmd p)) w)
              = (fst (umount_effect p (add_line (Echo (umount_cmd p)) w)), [],
                 snd (umount_effect p (add_line (Echo (umount_cmd p)) w))))
    by reflexivity.
  rewrite (run_eq _ false false _ E).
  unfold umount_effect, umount_status.
  change (mounted p (add_line (Echo (umount_cmd p)) w)) with (mounted p w).
  destruct (mounted p w) eqn:Em; simpl; [reflexivity|].
  unfold mounted in Em. rewrite (remove_first_path_absent _ _ Em). reflexivity.
Qed.

Lemma mounted_head p ms w : mounts w = p :: ms -> mounted p w = true.
Proof.
  intros H. unfold mounted. rewrite H. simpl.
  destruct (path_eq_dec p p); [reflexivity | congruence].
Qed.

Lemma umount_all_mounted ps :
  forall ms w,
    mounts w = ps ++ ms ->
    exists w1,
      umount_all ps w = (Ok tt, w1) /\
      mounts w1 = ms /\
      trace w1 = trace w ++ succeeded (map umount_cmd ps) /\
      subvols w1 = subvols w.
Proof.
  induction ps as [|p ps IH]; intros ms w Hm.
  - exists w. simpl. rewrite app_nil_r. auto.
  - unfold umount_all. cbn [for_each].
    unfold bind at 1. unfold bind at 1. rewrite run_umount_eq.
    unfold ret at 1. unfold umount_status.
    rewrite (mounted_head w (ms := ps ++ ms) Hm), Hm. cbn [app].
    rewrite remove_first_path_head.
    destruct (IH ms (add_trace (umount_cmd p) (Exit 0)
                       (set_mounts (ps ++ ms)
                          (add_line (Echo (umount_cmd p)) w))) eq_refl)
      as [w1 [E [M1 [T1 S1]]]].
    exists w1. split; [exact E|]. split; [exact M1|]. split.
    + rewrite T1. simpl. now rewrite <- app_assoc.
    + rewrite S1. reflexivity.
Qed.

(** The [finally] suite after the four binds: they are unmounted last
    mounted first; then [<root>/sys] is unmounted, which the set-up never
    mounted. *)
Lemma teardown_eq root ms w :
  mounts w = rev (map snd (chroot_binds root)) ++ ms ->
  exists w1,
    teardown root w = (Ok tt, w1) /\
    mounts w1 = remove_first_path (Sub root "sys") ms /\
    trace w1 = trace w
                 ++ succeeded (map umount_cmd (rev (map snd (chroot_binds root))))
                 ++ [(umount_cmd (Sub root "sys"),
                      if existsb (fun q => if path_eq_dec q (Sub root "sys")
                                           then true else false) ms
                      then Exit 0 else Exit 32)] /\
    subvols w1 = subvols w.
Proof.
  intros Hm. unfold teardown.
  destruct (umount_all_mounted _ _ _ Hm) as [w1 [E [M1 [T1 S1]]]].
  rewrite (bind_ok _ _ _ E).
  unfold bind at 1. rewrite run_umount_eq. unfold ret.
  eexists. split; [reflexivity|]. simpl. split; [|split].
  - now rewrite M1.
  - rewrite T1, <- app_assoc. unfold umount_status, mounted. now rewrite M1.
  - exact S1.
Qed.

Lemma handover_eq root w :
  (chdir root ;; execvp (shell_cmd root)) w =
  if exists_in (subvols w) root
  then match tool (shell_cmd root) with
       | SpawnError => (Raise OSError, w)
       | Exit c => (Replaced, add_trace (shell_cmd root) (Exit c) w)
       end
  else (Raise OSError, w).
Proof.
  unfold bind, chdir, execvp. rewrite path_exists_subvols.
  destruct (exists_in (subvols w) root); reflexivity.
Qed.

Lemma setup_ok root w :
  (forall c, In c (chroot_setup root) -> tool c = Exit 0) ->
  exists w2,
    (mount_all (chroot_binds root) ;; run (rslave_cmd root) true false) w
    = (Ok None, w2) /\
    mounts w2 = rev (map snd (chroot_binds root)) ++ mounts w /\
    trace w2 = trace w ++ succeeded (chroot_setup root) /\
    subvols w2 = subvols w.
Proof.
  intros H.
  assert (Hb : Forall (fun b => tool (bind_cmd (fst b) (snd b)) = Exit 0)
                 (chroot_binds root)).
  { apply Forall_forall. intros b Hin. apply H. unfold chroot_setup.
    apply in_or_app. left. unfold bind_cmds.
    now apply (in_map (fun b => bind_cmd (fst b) (snd b))). }
  assert (Hr : tool (rslave_cmd root) = Exit 0).
  { apply H. unfold chroot_setup. apply in_or_app. right. now left. }
  destruct (mount_all_ok Hb w) as [w1 [E [M1 [T1 S1]]]].
  rewrite (bind_ok _ _ _ E), run_rslave_eq, Hr. simpl negb. cbv iota.
  eexists. split; [reflexivity|]. simpl. split; [exact M1|]. split; [|exact S1].
  rewrite T1, <- app_assoc. reflexivity.
Qed.


Lemma chroot_after_setup snap_id w w2 :
  (mount_all (chroot_binds (snapshot_path snap_id)) ;;
   run (rslave_cmd (snapshot_path snap_id)) true false) w = (Ok None, w2) ->
  chroot [I snap_id] w
  = try_finally
      (chdir (snapshot_path snap_id) ;;
       execvp (shell_cmd (snapshot_path snap_id)))
      (teardown (snapshot_path snap_id)) w2.
Proof.
  intros H. rewrite chroot_eq.
  rewrite <- (bind_assoc (mount_all (chroot_binds (snapshot_path snap_id)))
                (fun _ => run (rslave_cmd (snapshot_path snap_id)) true false)
                (fun _ => try_finally
                            (chdir (snapshot_path snap_id) ;;
                             execvp (shell_cmd (snapshot_path snap_id)))
                            (teardown (snapshot_path snap_id)))).
  now rewrite (bind_ok _ _ _ H).
Qed.

(** X12.  [chroot <id>] when the set-up succeeds and the [chroot] program is
    found: the process is replaced, whatever status the shell ends with, and
    the [finally] suite has not run.  The four binds, [/proc] among them
    (no [mount -t proc] is ever run), are still mounted and no [umount] was
    spawned. *)
Theorem chroot_hands_over_with_mounts (snap_id code : Z) (w : world) :
  let root := snapshot_path snap_id in
  let r := chroot [I snap_id] w in
  (forall c, In c (chroot_setup root) -> tool c = Exit 0) ->
  exists_in (subvols w) root = true ->
  tool (shell_cmd root) = Exit code ->
  fst r = Replaced /\
  mounts (snd r)
  = Sub root "dev" :: Sub root "proc" :: Sub root "etc" :: Sub root "var"
      :: mounts w /\
  trace (snd r)
  = trace w ++ succeeded (chroot_setup root) ++ [(shell_cmd root, Exit code)] /\
  subvols (snd r) = subvols w.
Proof.
  intros root r Hs Hex Hsh. subst r.
  destruct (setup_ok w Hs) as [w2 [E [M2 [T2 S2]]]].
  rewrite (chroot_after_setup _ _ E).
  unfold try_finally. fold root. rewrite handover_eq, S2, Hex, Hsh. simpl.
  split; [reflexivity|]. split; [exact M2|]. split; [|exact S2].
  rewrite T2, <- app_assoc. reflexivity.
Qed.

(** X13.  [chroot <id>] when the set-up succeeds but the snapshot directory
    cannot be entered or the [chroot] program cannot be started: the
    [finally] suite runs and the call ends with [OSError].  The four binds
    are unmounted, last mounted first; then [<root>/sys] is unmounted too,
    which the set-up did not mount: a mount the caller had there is gone
    afterwards. *)
Theorem chroot_unmounts_when_shell_cannot_start (snap_id : Z) (w : world) :
  let root := snapshot_path snap_id in
  let r := chroot [I snap_id] w in
  (forall c, In c (chroot_setup root) -> tool c = Exit 0) ->
  exists_in (subvols w) root = false \/ tool (shell_cmd root) = SpawnError ->
  fst r = Raise OSError /\
  mounts (snd r) = remove_first_path (Sub root "sys") (mounts w) /\
  trace (snd r)
  = trace w ++ succeeded (chroot_setup root)
      ++ succeeded (map umount_cmd [ Sub root "dev"; Sub root "proc";
                                     Sub root "etc"; Sub root "var" ])
      ++ [(umount_cmd (Sub root "sys"), umount_status (Sub root "sys") w)] /\
  subvols (snd r) = subvols w.
Proof.
  intros root r Hs Hf. subst r.
  destruct (setup_ok w Hs) as [w2 [E [M2 [T2 S2]]]].
  rewrite (chroot_after_setup _ _ E).
  unfold try_finally. fold root. rewrite handover_eq, S2.
  assert (Hr : (if exists_in (subvols w) root
                then match tool (shell_cmd root) with
                     | Exit c => (@Replaced unit, add_trace (shell_cmd root) (Exit c) w2)
                     | SpawnError => (Raise OSError, w2)
                     end
                else (Raise OSError, w2)) = (Raise OSError, w2)).
  { destruct Hf as [-> | ->]; [reflexivity|].
    destruct (exists_in (subvols w) root); reflexivity. }
  rewrite Hr.
  destruct (teardown_eq (ms := mounts w) w2 M2) as [w3 [E3 [M3 [T3 S3]]]].
  rewrite (bind_ok _ _ _ E3). simpl.
  split; [reflexivity|]. split; [exact M3|]. split.
  - rewrite T3, T2, <- !app_assoc. reflexivity.
  - now rewrite S3.
Qed.

Lemma chroot_bind_fails snap_id pre b post c w :
  chroot_binds (snapshot_path snap_id) = pre ++ b :: post ->
  Forall (fun b => tool (bind_cmd (fst b) (snd b)) = Exit 0) pre ->
  tool (bind_cmd (fst b) (snd b)) = Exit c -> c <> 0 ->
  fst (chroot [I snap_id] w) = Raise (SystemExit 1) /\
  mounts (snd (chroot [I snap_id] w)) = rev (map snd pre) ++ mounts w /\
  trace (snd (chroot [I snap_id] w))
  = trace w ++ succeeded (bind_cmds pre) ++ [(bind_cmd (fst b) (snd b), Exit c)] /\
  subvols (snd (chroot [I snap_id] w)) = subvols w.
Proof.
  intros Hs Hpre Hb Hc. rewrite chroot_eq, Hs.
  destruct (@mount_all_fails pre b post c Hpre Hb Hc w) as [w1 [E H]].
  rewrite (bind_raise _ _ _ E). split; [reflexivity | exact H].
Qed.

(** X14.  [chroot <id>] when one of its set-up commands, the four binds and the
    [--make-rslave] call, exits with a non-zero status: the call ends with
    exit status 1 right there, before the [try] statement, so nothing is
    unmounted: every bind made before the failure stays mounted. *)
Theorem chroot_failed_setup_keeps_mounts
    (snap_id code : Z) (w : world) (pre post : list cmdline) (c : cmdline) :
  let root := snapshot_path snap_id in
  let r := chroot [I snap_id] w in
  chroot_setup root = pre ++ c :: post ->
  (forall x, In x pre -> tool x = Exit 0) ->
  tool c = Exit code -> code <> 0 ->
  fst r = Raise (SystemExit 1) /\
  mounts (snd r) = rev (flat_map mount_point pre) ++ mounts w /\
  trace (snd r) = trace w ++ succeeded pre ++ [(c, Exit code)] /\
  subvols (snd r) = subvols w.
Proof.
  intros root r Hsplit Hpre Hc Hne. subst r.
  assert (Hok : Forall (fun x => tool x = Exit 0) pre)
    by now apply Forall_forall.
  clear Hpre.
  destruct pre as [|c1 [|c2 [|c3 [|c4 [|c5 pre]]]]];
    cbv [chroot_setup bind_cmds chroot_binds map app fst snd] in Hsplit;
    injection Hsplit as Hsplit; subst.
  - apply (@chroot_bind_fails snap_id [] (Abs "/var", Sub root "var") _ code w
             eq_refl); auto.
  - apply (@chroot_bind_fails snap_id [(Abs "/var", Sub root "var")]
             (Abs "/etc", Sub root "etc") _ code w eq_refl); auto.
    inversion Hok; subst. repeat constructor; assumption.
  - apply (@chroot_bind_fails snap_id
             [(Abs "/var", Sub root "var"); (Abs "/etc", Sub root "etc")]
             (Abs "/proc", Sub root "proc") _ code w eq_refl); auto.
    inversion Hok as [|? ? H1 Hok1]; subst.
    inversion Hok1; subst. repeat constructor; assumption.
  - apply (@chroot_bind_fails snap_id
             [(Abs "/var", Sub root "var"); (Abs "/etc", Sub root "etc");
              (Abs "/proc", Sub root "proc")]
             (Abs "/dev", Sub root "dev") _ code w eq_refl); auto.
    inversion Hok as [|? ? H1 Hok1]; subst.
    inversion Hok1 as [|? ? H2 Hok2]; subst.
    inversion Hok2; subst. repeat constructor; assumption.
  - assert (Hb : Forall (fun b => tool (bind_cmd (fst b) (snd b)) = Exit 0)
                   (chroot_binds root)).
    { inversion Hok as [|? ? H1 Hok1]; subst.
      inversion Hok1 as [|? ? H2 Hok2]; subst.
      inversion Hok2 as [|? ? H3 Hok3]; subst.
      inversion Hok3; subst. repeat constructor; assumption. }
    rewrite chroot_eq. fold root.
    destruct (mount_all_ok Hb w) as [w1 [E [M1 [T1 S1]]]].
    rewrite (bind_ok _ _ _ E).
    pose proof (run_rslave_eq root w1) as Er. rewrite Hc in Er.
    apply Z.eqb_neq in Hne. rewrite Hne in Er. simpl in Er.
    rewrite (bind_raise _ _ _ Er). simpl.
    split; [reflexivity|]. split; [exact M1|]. split; [|exact S1].
    rewrite T1, <- app_assoc. reflexivity.
  - destruct pre; discriminate.
Qed.


(** ** The block of [base_update] *)

(** A command the orchestrator has no model of, run with [check]. *)
Lemma run_tool_eq cmd w :
  external cmd (add_line (Echo cmd) w) = (tool cmd, [], add_line (Echo cmd) w) ->
  run cmd true false w =
  match tool cmd with
  | Exit c =>
      if c =? 0
      then (Ok None, add_trace cmd (Exit c) (add_line (Echo cmd) w))
      else (Raise (SystemExit 1),
            add_line (Log "ERROR" (MsgCommandFailed cmd))
              (add_trace cmd (Exit c) (add_line (Echo cmd) w)))
  | SpawnError =>
      (Raise OSError, add_trace cmd SpawnError (add_line (Echo cmd) w))
  end.
Proof.
  intros E. rewrite (run_eq _ true false _ E).
  destruct (tool cmd) as [c|]; [|reflexivity].
  simpl. destruct (c =? 0); reflexivity.
Qed.

Lemma run_pacman_eq w :
  run pacman_upgrade_cmd true false w =
  match tool pacman_upgrade_cmd with
  | Exit c =>
      if c =? 0
      then (Ok None,
            add_trace pacman_upgrade_cmd (Exit c)
              (add_line (Echo pacman_upgrade_cmd) w))
      else (Raise (SystemExit 1),
            add_line (Log "ERROR" (MsgCommandFailed pacman_upgrade_cmd))
              (add_trace pacman_upgrade_cmd (Exit c)
                 (add_line (Echo pacman_upgrade_cmd) w)))
  | SpawnError =>
      (Raise OSError,
       add_trace pacman_upgrade_cmd SpawnError
         (add_line (Echo pacman_upgrade_cmd) w))
  end.
Proof. apply run_tool_eq. reflexivity. Qed.

Lemma run_delete_checked p w :
  exists_in (subvols w) p = true ->
  run (delete_cmd p) true false w =
  (Ok None,
   add_trace (delete_cmd p) (Exit 0)
     (set_subvols (remove_path p (subvols w)) (add_line (Echo (delete_cmd p)) w))).
Proof.
  intros H. rewrite (run_eq _ true false _ (external_delete p _)).
  unfold delete_effect.
  change (path_exists p (add_line (Echo (delete_cmd p)) w))
    with (exists_in (subvols w) p).
  rewrite H. reflexivity.
Qed.

Lemma run_base_snapshot_eq w :
  run base_snapshot_cmd true false w =
  match find_subvol (Abs "/") (subvols w) with
  | Some s =>
      if exists_in (subvols w) (snapshot_path 0)
      then (Raise (SystemExit 1),
            add_line (Log "ERROR" (MsgCommandFailed base_snapshot_cmd))
              (add_trace base_snapshot_cmd (Exit 1)
                 (add_line (Echo base_snapshot_cmd) w)))
      else (Ok None,
            add_trace base_snapshot_cmd (Exit 0)
              (set_next_uuid (S (next_uuid w))
                 (set_subvols (subvols w ++ [new_base w s])
                    (add_line (Echo base_snapshot_cmd) w))))
  | None =>
      (Raise (SystemExit 1),
       add_line (Log "ERROR" (MsgCommandFailed base_snapshot_cmd))
         (add_trace base_snapshot_cmd (Exit 1)
            (add_line (Echo base_snapshot_cmd) w)))
  end.
Proof.
  assert (E : external base_snapshot_cmd (add_line (Echo base_snapshot_cmd) w)
              = (fst (snapshot_effect false (Abs "/") (snapshot_path 0)
                        (add_line (Echo base_snapshot_cmd) w)), [],
                 snd (snapshot_effect false (Abs "/") (snapshot_path 0)
                        (add_line (Echo base_snapshot_cmd) w)))) by reflexivity.
  rewrite (run_eq _ true false _ E). unfold snapshot_effect.
  change (subvols (add_line (Echo base_snapshot_cmd) w)) with (subvols w).
  destruct (find_subvol (Abs "/") (subvols w)) as [s|]; [|reflexivity].
  change (path_exists (snapshot_path 0) (add_line (Echo base_snapshot_cmd) w))
    with (exists_in (subvols w) (snapshot_path 0)).
  destruct (exists_in (subvols w) (snapshot_path 0)); reflexivity.
Qed.

Lemma exists_in_remove_path p svs : exists_in (remove_path p svs) p = false.
Proof.
  destruct (exists_in (remove_path p svs) p) eqn:E; [|reflexivity].
  apply exists_in_spec in E. destruct E as [sv [Hin Hp]].
  apply remove_path_spec in Hin. tauto.
Qed.

Lemma find_subvol_remove_other p q svs :
  p <> q -> find_subvol p (remove_path q svs) = find_subvol p svs.
Proof.
  intros Hne. unfold find_subvol, remove_path.
  induction svs as [|sv svs IH]; simpl; auto.
  destruct (has_path q sv) eqn:Eq; simpl.
  - apply has_path_true in Eq.
    rewrite has_path_other by congruence. exact IH.
  - destruct (has_path p sv); auto.
Qed.

(** What the block does once the upgrade has succeeded: the old base, if
    there is one, is deleted, and only then is the new one made. *)
Lemma base_update_block_after_upgrade w :
  tool pacman_upgrade_cmd = Exit 0 ->
  exists w1,
    subvols w1 = remove_path (snapshot_path 0) (subvols w) /\
    next_uuid w1 = next_uuid w /\
    base_update_block w = (run base_snapshot_cmd true false ;; ret tt) w1.
Proof.
  intros Hp. unfold base_update_block.
  pose proof (run_pacman_eq w) as Er. rewrite Hp in Er. simpl in Er.
  change [W "pacman"; W "-Syu"; W "--noconfirm"] with pacman_upgrade_cmd.
  rewrite (bind_ok _ _ _ Er).
  set (w0 := add_trace pacman_upgrade_cmd (Exit 0)
               (add_line (Echo pacman_upgrade_cmd) w)).
  unfold bind at 1. cbv beta iota.
  change (path_exists (snapshot_path 0) w0)
    with (exists_in (subvols w) (snapshot_path 0)).
  destruct (exists_in (subvols w) (snapshot_path 0)) eqn:Ex.
  - assert (Ed : run (delete_cmd (snapshot_path 0)) true false w0
                 = (Ok None,
                    add_trace (delete_cmd (snapshot_path 0)) (Exit 0)
                      (set_subvols (remove_path (snapshot_path 0) (subvols w0))
                         (add_line (Echo (delete_cmd (snapshot_path 0))) w0))))
      by now apply run_delete_checked.
    eexists. split; [|split]; cycle 2.
    + unfold bind at 1. unfold bind at 1.
      change [W "btrfs"; W "subvolume"; W "delete"; P (snapshot_path 0)]
        with (delete_cmd (snapshot_path 0)).
      rewrite Ed. unfold ret at 1. reflexivity.
    + reflexivity.
    + reflexivity.
  - exists w0. split; [|split].
    + simpl. now rewrite remove_path_absent.
    + reflexivity.
    + reflexivity.
Qed.


(** X15.  The block of [base_update] when the upgrade succeeds and [/] is a
    subvolume: it completes; the rootfs member of ID 0, when there was one,
    is gone and a fresh snapshot of [/] stands in its place, the last member
    of the store, every other member being as before.  The new base is not
    read-only, so a file in it can be written, and it has no children: the
    snapshots cloned from the old base are not reported under ID 0 any
    more. *)
Theorem base_update_block_replaces_base (w : world) (s : subvol) :
  tool pacman_upgrade_cmd = Exit 0 ->
  find_subvol (Abs "/") (subvols w) = Some s ->
  let w' := snd (base_update_block w) in
  fst (base_update_block w) = Ok tt /\
  subvols w' = remove_path (snapshot_path 0) (subvols w) ++ [new_base w s] /\
  writable (Sub (snapshot_path 0) "meta.json") w' = true /\
  (uuids_ok w = true -> fst (get_children 0 w') = Ok []).
Proof.
  intros Hp Hs w'.
  destruct (base_update_block_after_upgrade w Hp) as [w1 [S1 [U1 E]]].
  assert (Hs1 : find_subvol (Abs "/") (subvols w1) = Some s).
  { rewrite S1, find_subvol_remove_other; [exact Hs | discriminate]. }
  assert (Hx1 : exists_in (subvols w1) (snapshot_path 0) = false).
  { rewrite S1. apply exists_in_remove_path. }
  pose proof (run_base_snapshot_eq w1) as Er. rewrite Hs1, Hx1 in Er.
  rewrite (bind_ok _ _ _ Er) in E. unfold ret in E.
  assert (Sw : subvols w'
               = remove_path (snapshot_path 0) (subvols w) ++ [new_base w s]).
  { subst w'. rewrite E. simpl. rewrite S1. unfold new_base. now rewrite U1. }
  assert (Hf : find_subvol (snapshot_path 0) (subvols w') = Some (new_base w s)).
  { rewrite Sw, find_subvol_app_r by apply exists_in_remove_path.
    now apply find_subvol_head. }
  split; [now rewrite E|]. split; [exact Sw|]. split.
  - unfold writable. cbn [holder]. now rewrite Hf.
  - intros Hu. rewrite (get_children_found 0 w' Hf). simpl. f_equal.
    apply child_ids_none. intros sv Hin Hpar. rewrite Sw in Hin.
    destruct (find_subvol_in _ _ Hs) as [Is _].
    destruct (uuids_ok_below w s Hu Is) as [Ls _].
    apply in_app_or in Hin. destruct Hin as [Hin | [<- | []]].
    + apply remove_path_spec in Hin. destruct Hin as [Hin _].
      destruct (uuids_ok_below w sv Hu Hin) as [_ L].
      specialize (L _ Hpar). simpl in L. lia.
    + simpl in Hpar. injection Hpar as Hpar. lia.
Qed.

(** X16.  The block of [base_update] when the upgrade succeeds but the snapshot of
    [/] cannot be made: the old base has been deleted by then and is not
    restored; the call ends with exit status 1 and the store has no rootfs
    member of ID 0. *)
Theorem base_update_block_can_lose_base (w : world) :
  tool pacman_upgrade_cmd = Exit 0 ->
  find_subvol (Abs "/") (subvols w) = None ->
  let w' := snd (base_update_block w) in
  fst (base_update_block w) = Raise (SystemExit 1) /\
  subvols w' = remove_path (snapshot_path 0) (subvols w) /\
  exists_in (subvols w') (snapshot_path 0) = false.
Proof.
  intros Hp Hs w'.
  destruct (base_update_block_after_upgrade w Hp) as [w1 [S1 [U1 E]]].
  assert (Hs1 : find_subvol (Abs "/") (subvols w1) = None).
  { rewrite S1, find_subvol_remove_other; [exact Hs | discriminate]. }
  pose proof (run_base_snapshot_eq w1) as Er. rewrite Hs1 in Er.
  rewrite (bind_raise _ _ _ Er) in E.
  assert (Sw : subvols w' = remove_path (snapshot_path 0) (subvols w)).
  { subst w'. rewrite E. simpl. exact S1. }
  split; [now rewrite E|]. split; [exact Sw|].
  rewrite Sw. apply exists_in_remove_path.
Qed.

(** X17.  The block of [base_update] when the upgrade exits with a non-zero
    status: the call ends with exit status 1 at once; no [btrfs] command
    was run and the base is as it was. *)
Theorem base_update_block_stops_when_upgrade_fails (w : world) (c : Z) :
  tool pacman_upgrade_cmd = Exit c -> c <> 0 ->
  fst (base_update_block w) = Raise (SystemExit 1) /\
  subvols (snd (base_update_block w)) = subvols w /\
  trace (snd (base_update_block w)) = trace w ++ [(pacman_upgrade_cmd, Exit c)].
Proof.
  intros Hp Hc. unfold base_update_block.
  pose proof (run_pacman_eq w) as Er. rewrite Hp in Er.
  apply Z.eqb_neq in Hc. rewrite Hc in Er.
  change [W "pacman"; W "-Syu"; W "--noconfirm"] with pacman_upgrade_cmd.
  rewrite (bind_raise _ _ _ Er). repeat split.
Qed.


(** ** Files inside snapshots: [set_desc] and [edit_conf] *)

Lemma file_read_write_same p c d : file_read p (file_write p c d) = Some c.
Proof.
  induction d as [|[q c'] d IH]; simpl.
  - destruct (path_eq_dec p p); congruence.
  - destruct (path_eq_dec q p) as [E|E]; simpl;
      destruct (path_eq_dec q p); congruence.
Qed.

Lemma file_read_write_other p q c d :
  p <> q -> file_read p (file_write q c d) = file_read p d.
Proof.
  intros Hne. induction d as [|[q' c'] d IH]; simpl.
  - destruct (path_eq_dec q p); congruence.
  - destruct (path_eq_dec q' q) as [E|E]; simpl.
    + destruct (path_eq_dec q' p); congruence.
    + destruct (path_eq_dec q' p); congruence.
Qed.

Lemma file_write_twice p c c' d :
  file_write p c' (file_write p c d) = file_write p c' d.
Proof.
  induction d as [|[q c0] d IH]; simpl.
  - destruct (path_eq_dec p p); congruence.
  - destruct (path_eq_dec q p) as [E|E]; simpl;
      destruct (path_eq_dec q p); congruence.
Qed.

Lemma dict_get_set_same k v fs : dict_get k (dict_set k v fs) = Some v.
Proof.
  induction fs as [|[k' v'] fs IH]; simpl.
  - now rewrite String.eqb_refl.
  - destruct (String.eqb k' k) eqn:E; simpl; now rewrite E.
Qed.

Lemma dict_get_set_other k k' v fs :
  k' <> k -> dict_get k' (dict_set k v fs) = dict_get k' fs.
Proof.
  intros Hne. induction fs as [|[k0 v0] fs IH]; simpl.
  - apply String.eqb_neq in Hne. rewrite String.eqb_sym. now rewrite Hne.
  - destruct (String.eqb k0 k) eqn:E; simpl.
    + apply String.eqb_eq in E. subst k0.
      assert (E' : String.eqb k k' = false)
        by (apply String.eqb_neq; congruence).
      now rewrite E'.
    + destruct (String.eqb k0 k'); auto.
Qed.

Lemma dict_set_twice k v v' fs :
  dict_set k v' (dict_set k v fs) = dict_set k v' fs.
Proof.
  induction fs as [|[k0 v0] fs IH]; simpl.
  - now rewrite String.eqb_refl.
  - destruct (String.eqb k0 k) eqn:E; simpl; rewrite E; congruence.
Qed.

(** [set_desc] with an ID and a text, by what the file holds. *)
Lemma set_desc_eq snap_id x ws d w :
  set_desc (I snap_id :: x :: ws) d w =
  match file_read (meta_file snap_id) d with
  | Some NotJson => ((Raise ValueError, w), d)
  | Some JsonOther => ((Raise TypeError, w), d)
  | Some (JsonObject fs) =>
      write_json (meta_file snap_id)
        (JsonObject (dict_set "desc" (JText (x :: ws)) fs)) d w
  | None =>
      write_json (meta_file snap_id)
        (JsonObject (dict_set "desc" (JText (x :: ws)) [])) d w
  end.
Proof.
  unfold set_desc, read_json, meta_file. cbn [List.length Nat.ltb Nat.leb].
  cbv iota. unfold item. cbn [nth int tl]. unfold bind at 1, ret at 1.
  cbv beta iota. unfold bind at 1.
  destruct (file_read (Sub (snapshot_path snap_id) "meta.json") d)
    as [[fs| |]|]; reflexivity.
Qed.


Lemma write_json_refused p c d w :
  writable p w = false -> write_json p c d w = ((Raise OSError, w), d).
Proof. intros H. unfold write_json. now rewrite H. Qed.

(** Without a writable snapshot under it, [set_desc] ends with an exception
    and [edit_conf] with [OSError]; the world and the files are as before. *)
Lemma files_refused editor snap_id x ws d w :
  writable (meta_file snap_id) w = false ->
  (exists e,
     set_desc (I snap_id :: x :: ws) d w = ((Raise e, w), d) /\
     (meta_fields snap_id d <> None -> e = OSError)) /\
  edit_conf editor [I snap_id] d w = ((Raise OSError, w), d).
Proof.
  intros H. split.
  - rewrite set_desc_eq. unfold meta_fields.
    destruct (file_read (meta_file snap_id) d) as [[fs| |]|].
    + exists OSError. split; [now apply write_json_refused | auto].
    + exists TypeError. split; [reflexivity | congruence].
    + exists ValueError. split; [reflexivity | congruence].
    + exists OSError. split; [now apply write_json_refused | auto].
  - unfold edit_conf, int, ret, touch.
    change (writable (Sub (snapshot_path snap_id) "ast.conf") w)
      with (writable (meta_file snap_id) w).
    now rewrite H.
Qed.

(** X18.  [desc <id> <text...>] on a snapshot that is not read-only, whose
    [meta.json] is missing or holds a JSON object: the call completes and
    leaves the world alone; afterwards the file holds an object whose
    ["desc"] is the text and whose other keys have the values they had;
    every other file is as before; and a second, identical call changes
    nothing more. *)
Theorem set_desc_sets_the_description
    (snap_id : Z) (x : word) (ws : list word) (d : disk) (w : world)
    (fs : list (string * jvalue)) :
  writable (meta_file snap_id) w = true ->
  meta_fields snap_id d = Some fs ->
  let r := set_desc (I snap_id :: x :: ws) d w in
  fst r = (Ok tt, w) /\
  (exists fs',
     file_read (meta_file snap_id) (snd r) = Some (JsonObject fs') /\
     dict_get "desc" fs' = Some (JText (x :: ws)) /\
     forall k, k <> "desc" -> dict_get k fs' = dict_get k fs) /\
  (forall p, p <> meta_file snap_id -> file_read p (snd r) = file_read p d) /\
  set_desc (I snap_id :: x :: ws) (snd r) w = r.
Proof.
  intros Hw Hf r.
  assert (E : r = ((Ok tt, w),
                   file_write (meta_file snap_id)
                     (JsonObject (dict_set "desc" (JText (x :: ws)) fs)) d)).
  { subst r. rewrite set_desc_eq. unfold meta_fields in Hf. unfold write_json.
    rewrite Hw.
    destruct (file_read (meta_file snap_id) d) as [[fs0| |]|];
      try discriminate; injection Hf as <-; reflexivity. }
  rewrite E. simpl fst. simpl snd. split; [reflexivity|]. split; [|split].
  - exists (dict_set "desc" (JText (x :: ws)) fs).
    split; [apply file_read_write_same|].
    split; [apply dict_get_set_same|].
    intros k Hk. now apply dict_get_set_other.
  - intros p Hp. now apply file_read_write_other.
  - rewrite set_desc_eq, file_read_write_same. unfold write_json. rewrite Hw.
    now rewrite dict_set_twice, file_write_twice.
Qed.

(** X19.  [desc] and [edit-conf] on an ID whose snapshot is missing or read-only:
    both end with an exception; no file is written or created, the editor
    is not started and the world is as before.  [edit-conf] ends with
    [OSError]; [desc] ends with [ValueError] when [meta.json] is there and
    is not JSON, with [TypeError] when it is JSON but not an object, and
    with [OSError] otherwise. *)
Theorem read_only_snapshots_take_no_files
    (editor : string) (snap_id : Z) (x : word) (ws : list word)
    (d : disk) (w : world) :
  writable (meta_file snap_id) w = false ->
  set_desc (I snap_id :: x :: ws) d w
  = ((Raise (match file_read (meta_file snap_id) d with
             | Some NotJson => ValueError
             | Some JsonOther => TypeError
             | _ => OSError
             end), w), d) /\
  edit_conf editor [I snap_id] d w = ((Raise OSError, w), d).
Proof.
  intros H. split.
  - rewrite set_desc_eq.
    destruct (file_read (meta_file snap_id) d) as [[fs| |]|];
      try reflexivity; now apply write_json_refused.
  - now destruct (files_refused editor snap_id x ws d w H) as [_ E].
Qed.


(** X21.  [edit-conf <id>] on a snapshot that is not read-only: [ast.conf] is
    there before the editor is looked for, created empty when it was
    missing and with what it held otherwise, and no other file changes.
    When the editor is found the process is replaced; when it is not, the
    call ends with [OSError] and the file stays. *)
Theorem edit_conf_creates_the_file_first
    (editor : string) (snap_id : Z) (d : disk) (w : world) :
  writable (conf_file snap_id) w = true ->
  let r := edit_conf editor [I snap_id] d w in
  fst (fst r) = match tool [W editor; P (conf_file snap_id)] with
                | Exit _ => Replaced
                | SpawnError => Raise OSError
                end /\
  file_read (conf_file snap_id) (snd r)
  = Some (match file_read (conf_file snap_id) d with
          | Some c => c
          | None => NotJson
          end) /\
  (forall p, p <> conf_file snap_id -> file_read p (snd r) = file_read p d) /\
  subvols (snd (fst r)) = subvols w.
Proof.
  intros Hw r. subst r. unfold edit_conf, int, ret, touch.
  fold (conf_file snap_id). rewrite Hw. cbv iota. unfold execvp.
  simpl fst. simpl snd. split; [|split; [|split]].
  - destruct (tool [W editor; P (conf_file snap_id)]); reflexivity.
  - destruct (file_read (conf_file snap_id) d) eqn:E; [exact E|].
    apply file_read_write_same.
  - intros p Hp. destruct (file_read (conf_file snap_id) d); [reflexivity|].
    now apply file_read_write_other.
  - destruct (tool [W editor; P (conf_file snap_id)]); reflexivity.
Qed.

(** ** Actions that run one program *)

Lemma runs_only_run cmd w :
  external cmd (add_line (Echo cmd) w) = (tool cmd, [], add_line (Echo cmd) w) ->
  runs_only cmd (run cmd true false ;; ret tt) w.
Proof.
  intros E. unfold runs_only, bind. rewrite (run_tool_eq E).
  destruct (tool cmd) as [c|]; [|repeat split].
  destruct c; repeat split.
Qed.

(** X22.  [run], [install], [remove], [upgrade], [tmp] and [df] each spawn one
    program, once, with exactly these words: the given words follow the
    fixed ones unchanged, and the pattern of [tmp] goes out as it is
    written.  The call completes when the program exits with status 0, ends
    with exit status 1 whatever other status the program had, and with
    [OSError] when it cannot be started.  Nothing is mounted for the
    program, and the store is not touched. *)
Theorem single_command_actions (snap_id : Z) (x : word) (ws : list word) (w : world) :
  let root := P (snapshot_path snap_id) in
  runs_only ([W "chroot"; root] ++ x :: ws)
    (run_in_snapshot (I snap_id :: x :: ws)) w /\
  runs_only ([W "chroot"; root; W "pacman"; W "-S"; W "--noconfirm"] ++ x :: ws)
    (pkg_install (I snap_id :: x :: ws)) w /\
  runs_only ([W "chroot"; root; W "pacman"; W "-Rsn"; W "--noconfirm"] ++ x :: ws)
    (pkg_remove (I snap_id :: x :: ws)) w /\
  runs_only [W "chroot"; root; W "pacman"; W "-Syu"; W "--noconfirm"]
    (upgrade [I snap_id]) w /\
  runs_only [W "rm"; W "-rf"; W "/tmp/ast-*"] clean_tmp w /\
  runs_only [W "btrfs"; W "filesystem"; W "df"; P (Abs "/")] snapshot_df w.
Proof.
  intros root. repeat split; apply runs_only_run; reflexivity.
Qed.


(** ** The allocator *)


End Astpk.

(** * Concrete runs *)

(** C1.  [gc] on the store of the example, DeployedID 10: the operation ends
    with [TypeError] at its [with lock():] statement, no delete is attempted,
    and 5, 13 and 20 are still there with all their members. *)
Theorem gc_removes_nothing :
  gc all_succeed gc_world = (Raise TypeError, gc_world) /\
  member_ids Rootfs (subvols (snd (gc all_succeed gc_world)))
    = [0; 5; 8; 9; 10; 11; 12; 13; 20] /\
  member_ids Var (subvols (snd (gc all_succeed gc_world)))
    = [0; 5; 8; 9; 10; 11; 12; 13; 20] /\
  member_ids Etc (subvols (snd (gc all_succeed gc_world)))
    = [0; 5; 8; 9; 10; 11; 12; 13; 20] /\
  member_ids Boot (subvols (snd (gc all_succeed gc_world)))
    = [0; 5; 8; 9; 10; 11; 12; 13; 20] /\
  trace (snd (gc all_succeed gc_world)) = [].
Proof. repeat split. Qed.

(** The block that [gc] never reaches does what the retention rule asks on
    that store. *)
Example gc_block_on_example :
  fst (gc_block all_succeed gc_world) = Ok tt /\
  member_ids Rootfs (subvols (snd (gc_block all_succeed gc_world)))
    = [0; 8; 9; 10; 11; 12] /\
  member_ids Var (subvols (snd (gc_block all_succeed gc_world)))
    = [0; 8; 9; 10; 11; 12] /\
  member_ids Etc (subvols (snd (gc_block all_succeed gc_world)))
    = [0; 8; 9; 10; 11; 12] /\
  member_ids Boot (subvols (snd (gc_block all_succeed gc_world)))
    = [0; 8; 9; 10; 11; 12].
Proof. vm_compute. repeat split. Qed.

Example walk_tree_world :
  fst (_walk_tree 10%nat 1 tree_world) = Ok [1; 3; 2; 4].
Proof. reflexivity. Qed.

(** C2.  [tree-run 1 true] without [--fail-fast] on the tree 1 -> {2, 3},
    2 -> {4}, visited in the order 1, 3, 2, 4, where the command fails in 3:
    the run ends with exit status 1 right there.  The command was run in 1
    and 3 only, never in 2 or 4, and the "failed, continue" line was not
    printed: [utils.run] has turned the failure into [SystemExit], which
    [except Exception] does not catch. *)
Theorem tree_run_stops_at_first_failure :
  let r := tree_run fails_in_3 10%nat [I 1; W "true"] tree_world in
  fst (_walk_tree 10%nat 1 tree_world) = Ok [1; 3; 2; 4] /\
  fst r = Raise (SystemExit 1) /\
  ran_in (snd r) = [P (Member Rootfs 1); P (Member Rootfs 3)] /\
  ~ In (Print (MsgTreeRunFailed 3)) (console (snd r)) /\
  tree_run fails_in_3 10%nat [I 1; W "true"] tree_world
  = tree_run fails_in_3 10%nat [I 1; W "true"; W "--fail-fast"] tree_world.
Proof.
  vm_compute. repeat split.
  intros H. repeat (destruct H as [H|H]; [discriminate H|]). exact H.
Qed.

(** C4.  [chroot 1] when every mount succeeds and [chroot] is found:
    [os.execvp] replaces the process, so the [finally] suite is never run.
    However the shell ends, no [umount] is ever spawned and the four bind
    mounts stay mounted. *)
Theorem chroot_leaves_mounts :
  forall code : Z,
    let r := chroot (shell_ends_with code) [I 1] tree_world in
    fst r = Replaced /\
    mounts (snd r) =
      [ Sub (Member Rootfs 1) "dev"; Sub (Member Rootfs 1) "proc";
        Sub (Member Rootfs 1) "etc"; Sub (Member Rootfs 1) "var" ] /\
    (forall e, In e (trace (snd r)) -> hd (W "") (fst e) <> W "umount").
Proof.
  intros code r. subst r. cbv.
  repeat split.
  intros e H. repeat (destruct H as [H|H]; [subst e; simpl; discriminate|]).
  contradiction.
Qed.

Lemma tree_world_complete : complete (subvols tree_world).
Proof. apply completeb_complete. reflexivity. Qed.

(** C3.  [clone-tree 1] on the four-node tree 1 -> {2, 3}, 2 -> {4}: the
    operation ends with [TypeError] at its [with lock():] statement and the
    store holds the four original bundles and nothing else, so no new tree
    exists.  The recursive walk itself, had it been started, asks for the
    children of a node after it has cloned that node: the clone 5 of the
    root is then a child of 1 next to 2 and 3, it is cloned in turn, and for
    no amount of fuel does the walk return. *)
Theorem clone_tree_makes_no_copy :
  (forall fuel,
      clone_tree all_succeed fuel [I 1] tree_world = (Raise TypeError, tree_world)) /\
  member_ids Rootfs (subvols tree_world) = [1; 2; 3; 4] /\
  fst (get_children 1 tree_world) = Ok [2; 3] /\
  fst (get_children 1 (snd (clone_block all_succeed 1 5 tree_world)))
    = Ok [2; 3; 5] /\
  (forall fuel,
      fst (_clone_recursive all_succeed fuel 1 None tree_world) = OutOfFuel).
Proof.
  split; [reflexivity|]. split; [reflexivity|]. split; [reflexivity|].
  split; [reflexivity|]. intros fuel.
  apply _clone_recursive_diverges;
    [reflexivity | apply tree_world_complete | reflexivity].
Qed.

(** What the walk has made of the tree when it is cut off after seven
    calls: the clones 5 .. 11, where 5 copies the root, 6 copies 2, 7 copies
    4 and each later one copies the one before; the new root 5 has no
    children. *)
Example clone_walk_after_seven_calls :
  let w := snd (_clone_recursive all_succeed 7 1 None tree_world) in
  member_ids Rootfs (subvols w) = [1; 2; 3; 4; 5; 6; 7; 8; 9; 10; 11] /\
  fst (get_children 1 w) = Ok [2; 3; 5] /\
  fst (get_children 2 w) = Ok [4; 6] /\
  fst (get_children 4 w) = Ok [7] /\
  fst (get_children 7 w) = Ok [8] /\
  fst (get_children 5 w) = Ok [].
Proof. vm_compute. repeat split. Qed.

(** C6.  [deploy 2] while snapshot 1 is deployed: the operation ends at its
    [with lock():] statement.  Neither the default-subvolume change nor the
    bootloader generator is run, whether the generator would fail or not,
    and the system stays pointed at snapshot 1, not at 2. *)
Theorem deploy_leaves_the_default_unchanged :
  deploy generator_fails [I 2] tree_world = (Raise TypeError, tree_world) /\
  deploy all_succeed [I 2] tree_world = (Raise TypeError, tree_world) /\
  default_subvol tree_world = Member Rootfs 1 /\
  default_subvol (snd (deploy generator_fails [I 2] tree_world))
    <> snapshot_path 2 /\
  trace (snd (deploy generator_fails [I 2] tree_world)) = [] /\
  exists_in (subvols tree_world) (snapshot_path 2) = true.
Proof.
  split; [reflexivity|]. split; [reflexivity|]. split; [reflexivity|].
  split; [discriminate|]. split; reflexivity.
Qed.

(** C7.  Three runs of [clone 0] one after the other: every run is handed
    the same ID by [next_snapshot_id], 1 over the store that holds bundle 0
    and 0 over the empty store, because each run ends at its
    [with lock():] statement and adds nothing to the store. *)
Theorem clone_allocations_repeat :
  allocated_by_clones all_succeed [0; 0; 0] base_world = [Ok 1; Ok 1; Ok 1] /\
  allocated_by_clones all_succeed [0; 0; 0] empty_world = [Ok 0; Ok 0; Ok 0] /\
  rootfs_ids (subvols base_world) = [0] /\
  fst (clone all_succeed [I 0] base_world) = Raise TypeError /\
  subvols (snd (clone all_succeed [I 0] base_world)) = subvols base_world /\
  lock_holder (snd (clone all_succeed [I 0] base_world)) = None.
Proof. vm_compute. repeat split. Qed.


Lemma with_lock_raises_before_any_mutation_witness :
  fst (gc all_succeed gc_world) = Raise TypeError /\
  untouched gc_world (snd (gc all_succeed gc_world)) /\
  fst (clone all_succeed [I 10] gc_world) = Raise TypeError /\
  untouched gc_world (snd (clone all_succeed [I 10] gc_world)).
Proof.
  destruct (with_lock_raises_before_any_mutation all_succeed gc_world eq_refl)
    as [Hclone [_ [_ [_ Hgc]]]].
  destruct Hgc as [G1 G2]. destruct (Hclone 10) as [C1 C2].
  repeat split; assumption.
Defined.

Lemma clone_refuses_existing_destination_witness :
  fst (btrfs_snapshot all_succeed (Member Var 1) (Member Var 2) tree_world)
    = Raise (SystemExit 1) /\
  fst (clone_block all_succeed 1 2 tree_world) = Raise (SystemExit 1) /\
  untouched tree_world (snd (clone_block all_succeed 1 2 tree_world)).
Proof.
  destruct (clone_refuses_existing_destination all_succeed tree_world)
    as [H1 [H2 _]].
  destruct (H1 (Member Var 1) (Member Var 2) eq_refl) as [A _].
  destruct (H2 1 2 eq_refl) as [B C].
  repeat split; assumption.
Defined.

(** The [finally] suite of [chroot] does run when [os.execvp] itself raises:
    the binds are unmounted last-mounted first, then [<root>/sys]. *)
Example chroot_teardown_when_exec_fails :
  let r := chroot chroot_missing [I 1] tree_world in
  fst r = Raise OSError /\
  mounts (snd r) = [] /\
  unmounted (snd r) =
    [ P (Sub (Member Rootfs 1) "dev"); P (Sub (Member Rootfs 1) "proc");
      P (Sub (Member Rootfs 1) "etc"); P (Sub (Member Rootfs 1) "var");
      P (Sub (Member Rootfs 1) "sys") ].
Proof. vm_compute. repeat split. Qed.

(** The block of [deploy] for snapshot 2 when the generator fails: the
    default subvolume is snapshot 2 and stays so. *)
Example deploy_block_generator_fails :
  let r := deploy_block generator_fails 2 tree_world in
  fst r = Raise (SystemExit 1) /\
  default_subvol tree_world = Member Rootfs 1 /\
  default_subvol (snd r) = Member Rootfs 2 /\
  trace (snd r) =
    [ (set_default_cmd 2, Exit 0); (grub_mkconfig_cmd, Exit 1) ].
Proof. vm_compute. repeat split. Qed.

Lemma gc_block_retention_witness :
  exists w',
    gc_block all_succeed gc_world = (Ok tt, w') /\
    (forall sv,
        In sv (subvols w') <->
        In sv (subvols gc_world) /\
        forall k' id, sv_path sv = Member k' id ->
                      ~ collected 10 (subvols gc_world) id).
Proof.
  exact (gc_block_retention all_succeed gc_world (k := Rootfs) (d := 10) eq_refl).
Defined.

Lemma tree_run_loop_aborts_witness :
  fst (tree_run_loop fails_in_3 false [W "true"] [1; 3; 2; 4] tree_world)
    = Raise (SystemExit 1) /\
  trace (snd (tree_run_loop fails_in_3 false [W "true"] [1; 3; 2; 4] tree_world))
    = [ (chroot_cmd 1 [W "true"], Exit 0); (chroot_cmd 3 [W "true"], Exit 1) ].
Proof.
  apply (@tree_run_loop_aborts fails_in_3 false [W "true"] [1] 3 [2; 4] 1).
  - repeat constructor.
  - reflexivity.
  - discriminate.
Defined.



Lemma tree_run_loop_status_witness :
  exit_status (fst (tree_run_loop fails_in_3 true [W "true"] [1; 3; 2; 4]
                      tree_world)) <> 0 <->
  Exists (fun x => fails_in_3 (chroot_cmd x [W "true"]) <> Exit 0) [1; 3; 2; 4].
Proof.
  apply (@tree_run_loop_status fails_in_3 true [W "true"] [1; 3; 2; 4]).
  repeat constructor; discriminate.
Defined.

(** ** Instances of the general results *)

Lemma walk_tree_visits_every_node_witness :
  _walk_tree 5 1 tree_world = (Ok [1; 3; 2; 4], tree_world) /\
  hd_error [1; 3; 2; 4] = Some 1 /\
  Permutation [1; 3; 2; 4] [1; 2; 4; 3] /\
  NoDup [1; 3; 2; 4].
Proof.
  destruct (@walk_tree_visits_every_node tree_world example_tree 5)
    as [H1 [H2 [H3 H4]]].
  - reflexivity.
  - simpl. lia.
  - split; [exact H1|]. split; [exact H2|]. split; [exact H3|].
    apply H4. simpl.
    repeat (constructor; [simpl; intros H; repeat destruct H as [H|H];
                          try discriminate; try contradiction|]).
    constructor.
Defined.

Lemma tree_run_runs_in_every_snapshot_witness :
  fst (tree_run all_succeed 5 [I 1; W "true"; W "--fail-fast"] tree_world) = Ok tt /\
  trace (snd (tree_run all_succeed 5 [I 1; W "true"; W "--fail-fast"] tree_world))
  = [ (chroot_cmd 1 [W "true"], Exit 0); (chroot_cmd 3 [W "true"], Exit 0);
      (chroot_cmd 2 [W "true"], Exit 0); (chroot_cmd 4 [W "true"], Exit 0) ] /\
  subvols (snd (tree_run all_succeed 5 [I 1; W "true"; W "--fail-fast"] tree_world))
  = subvols tree_world.
Proof.
  apply (@tree_run_runs_in_every_snapshot all_succeed tree_world example_tree 5
           (W "true") [W "--fail-fast"]).
  - reflexivity.
  - simpl. lia.
  - intros id _. reflexivity.
Defined.

Lemma wrong_argument_count_is_refused_witness :
  refused (deploy all_succeed [] tree_world) tree_world /\
  refused (ubranch all_succeed [I 1] tree_world) tree_world /\
  refused (fst (set_desc [I 1] example_disk tree_world)) tree_world /\
  snd (set_desc [I 1] example_disk tree_world) = example_disk.
Proof.
  destruct (wrong_argument_count_is_refused all_succeed 5 "nano" []
              example_disk tree_world) as [H1 _].
  destruct (wrong_argument_count_is_refused all_succeed 5 "nano" [I 1]
              example_disk tree_world) as [_ [H2 H3]].
  split; [apply H1; discriminate|].
  split; [apply H2; discriminate|].
  apply H3. simpl. lia.
Defined.

Lemma main_only_exits_witness :
  (exists code, SystemExit 1 = SystemExit code) /\
  guarded (fun d w => ((Raise KeyboardInterrupt, w), d)) [] tree_world
  = ((Raise (SystemExit 130),
      add_line (Log "ERROR" (MsgText "Interrupted by user")) tree_world), []) /\
  guarded (no_files (gc all_succeed)) [] tree_world
  = ((Raise (SystemExit 1), add_line (Log "ERROR" (fatal TypeError)) tree_world),
     []) /\
  main all_succeed 5 0 "nano" (Some "gc") [] [] tree_world
  = guarded (no_files (gc all_succeed)) [] tree_world.
Proof.
  destruct (main_only_exits all_succeed 5 0 "nano" (Some "gc") [] [] tree_world)
    as [H1 [H2 H3]].
  split; [apply H1; reflexivity|].
  split; [apply (H2 _ KeyboardInterrupt); reflexivity|].
  split; [apply (H2 _ TypeError); reflexivity|].
  apply H3. reflexivity.
Defined.

Lemma main_refusals_witness :
  main all_succeed 5 1000 "nano" (Some "help") [] [] tree_world
  = ((Raise (SystemExit 1),
      add_line (Log "ERROR" (MsgText "This command must be run as root"))
        tree_world), []) /\
  main all_succeed 5 0 "nano" (Some "rollback") [] [] tree_world
  = ((Raise (SystemExit 1),
      add_line (Log "ERROR" (MsgText "Unknown command: rollback")) tree_world),
     []).
Proof.
  split.
  - apply (main_refusals all_succeed 5 1000 "nano" "help" [] [] tree_world).
    discriminate.
  - apply (main_refusals all_succeed 5 0 "nano" "rollback" [] [] tree_world).
    reflexivity.
Defined.

Lemma main_locked_calls_fail_witness :
  exists w1,
    main all_succeed 5 0 "nano" (Some "clone") [I 1] [] tree_world
    = ((Raise (SystemExit 1), add_line (Log "ERROR" (fatal TypeError)) w1), []) /\
    untouched tree_world w1.
Proof.
  apply (main_locked_calls_fail all_succeed 5 "nano" "clone" [I 1] [] tree_world);
    reflexivity.
Defined.

Lemma clone_block_leaves_partial_bundle_witness :
  fst (clone_block all_succeed 1 5 stray_world) = Raise (SystemExit 1) /\
  subvols (snd (clone_block all_succeed 1 5 stray_world))
  = subvols stray_world
      ++ [mkSubvol (Member Rootfs 5) 1000%nat (Some 10%nat) true] /\
  fst (clone_block all_succeed 1 5 (snd (clone_block all_succeed 1 5 stray_world)))
  = Raise (SystemExit 1) /\
  subvols (snd (clone_block all_succeed 1 5
                  (snd (clone_block all_succeed 1 5 stray_world))))
  = subvols (snd (clone_block all_succeed 1 5 stray_world)).
Proof.
  apply (@clone_block_leaves_partial_bundle all_succeed 1 5 stray_world
           (mkSubvol (Member Rootfs 1) 10%nat None true)).
  - reflexivity.
  - reflexivity.
  - left. reflexivity.
Defined.

Lemma clone_is_a_childless_child_witness :
  fst (clone_block all_succeed 1 5 tree_world) = Ok tt /\
  (exists before,
     fst (get_children 1 tree_world) = Ok before /\
     fst (get_children 1 (snd (clone_block all_succeed 1 5 tree_world)))
     = Ok (before ++ [5])) /\
  fst (get_children 5 (snd (clone_block all_succeed 1 5 tree_world))) = Ok [].
Proof.
  apply (@clone_is_a_childless_child all_succeed 1 tree_world); reflexivity.
Defined.

Lemma chroot_hands_over_with_mounts_witness :
  fst (chroot (shell_ends_with 7) [I 1] tree_world) = Replaced /\
  mounts (snd (chroot (shell_ends_with 7) [I 1] tree_world))
  = [ Sub (Member Rootfs 1) "dev"; Sub (Member Rootfs 1) "proc";
      Sub (Member Rootfs 1) "etc"; Sub (Member Rootfs 1) "var" ] /\
  trace (snd (chroot (shell_ends_with 7) [I 1] tree_world))
  = succeeded (chroot_setup (Member Rootfs 1))
      ++ [(shell_cmd (Member Rootfs 1), Exit 7)] /\
  subvols (snd (chroot (shell_ends_with 7) [I 1] tree_world))
  = subvols tree_world.
Proof.
  apply (@chroot_hands_over_with_mounts (shell_ends_with 7) 1 7 tree_world).
  - intros c H. simpl in H.
    repeat (destruct H as [<- | H]; [reflexivity|]). contradiction.
  - reflexivity.
  - reflexivity.
Defined.

Lemma chroot_unmounts_when_shell_cannot_start_witness :
  fst (chroot chroot_missing [I 1] tree_world) = Raise OSError /\
  mounts (snd (chroot chroot_missing [I 1] tree_world)) = [] /\
  trace (snd (chroot chroot_missing [I 1] tree_world))
  = succeeded (chroot_setup (Member Rootfs 1))
      ++ succeeded (map umount_cmd
                      [ Sub (Member Rootfs 1) "dev"; Sub (Member Rootfs 1) "proc";
                        Sub (Member Rootfs 1) "etc"; Sub (Member Rootfs 1) "var" ])
      ++ [(umount_cmd (Sub (Member Rootfs 1) "sys"), Exit 32)] /\
  subvols (snd (chroot chroot_missing [I 1] tree_world)) = subvols tree_world.
Proof.
  apply (@chroot_unmounts_when_shell_cannot_start chroot_missing 1 tree_world).
  - intros c H. simpl in H.
    repeat (destruct H as [<- | H]; [reflexivity|]). contradiction.
  - right. reflexivity.
Defined.

Lemma chroot_failed_setup_keeps_mounts_witness :
  fst (chroot proc_bind_fails [I 1] tree_world) = Raise (SystemExit 1) /\
  mounts (snd (chroot proc_bind_fails [I 1] tree_world))
  = [ Sub (Member Rootfs 1) "etc"; Sub (Member Rootfs 1) "var" ] /\
  trace (snd (chroot proc_bind_fails [I 1] tree_world))
  = [ (bind_cmd (Abs "/var") (Sub (Member Rootfs 1) "var"), Exit 0);
      (bind_cmd (Abs "/etc") (Sub (Member Rootfs 1) "etc"), Exit 0);
      (bind_cmd (Abs "/proc") (Sub (Member Rootfs 1) "proc"), Exit 32) ] /\
  subvols (snd (chroot proc_bind_fails [I 1] tree_world)) = subvols tree_world.
Proof.
  apply (@chroot_failed_setup_keeps_mounts proc_bind_fails 1 32 tree_world
           [ bind_cmd (Abs "/var") (Sub (Member Rootfs 1) "var");
             bind_cmd (Abs "/etc") (Sub (Member Rootfs 1) "etc") ]
           [ bind_cmd (Abs "/dev") (Sub (Member Rootfs 1) "dev");
             rslave_cmd (Member Rootfs 1) ]
           (bind_cmd (Abs "/proc") (Sub (Member Rootfs 1) "proc"))).
  - reflexivity.
  - intros c H. simpl in H.
    repeat (destruct H as [<- | H]; [reflexivity|]). contradiction.
  - reflexivity.
  - discriminate.
Defined.

Lemma base_update_block_replaces_base_witness :
  fst (base_update_block all_succeed live_world) = Ok tt /\
  subvols (snd (base_update_block all_succeed live_world))
  = remove_path (Member Rootfs 0) (subvols live_world)
      ++ [mkSubvol (Member Rootfs 0) 1000%nat (Some 5%nat) false] /\
  writable (Sub (Member Rootfs 0) "meta.json")
    (snd (base_update_block all_succeed live_world)) = true /\
  fst (get_children 0 live_world) = Ok [1] /\
  fst (get_children 0 (snd (base_update_block all_succeed live_world))) = Ok [].
Proof.
  destruct (@base_update_block_replaces_base all_succeed live_world
              (mkSubvol (Abs "/") 5%nat None false) eq_refl eq_refl)
    as [H1 [H2 [H3 H4]]].
  split; [exact H1|]. split; [exact H2|]. split; [exact H3|].
  split; [reflexivity|]. apply H4. reflexivity.
Defined.

Lemma base_update_block_can_lose_base_witness :
  fst (base_update_block all_succeed base_world) = Raise (SystemExit 1) /\
  subvols (snd (base_update_block all_succeed base_world))
  = remove_path (Member Rootfs 0) (subvols base_world) /\
  exists_in (subvols (snd (base_update_block all_succeed base_world)))
    (Member Rootfs 0) = false.
Proof.
  apply (@base_update_block_can_lose_base all_succeed base_world); reflexivity.
Defined.

Lemma base_update_block_stops_when_upgrade_fails_witness :
  fst (base_update_block pacman_fails live_world) = Raise (SystemExit 1) /\
  subvols (snd (base_update_block pacman_fails live_world)) = subvols live_world /\
  trace (snd (base_update_block pacman_fails live_world))
  = [(pacman_upgrade_cmd, Exit 1)].
Proof.
  apply (@base_update_block_stops_when_upgrade_fails pacman_fails live_world 1).
  - reflexivity.
  - discriminate.
Defined.

Lemma set_desc_sets_the_description_witness :
  fst (set_desc [I 0; W "base"; W "image"] example_disk fresh_base_world)
  = (Ok tt, fresh_base_world) /\
  (exists fs',
     file_read (meta_file 0)
       (snd (set_desc [I 0; W "base"; W "image"] example_disk fresh_base_world))
     = Some (JsonObject fs') /\
     dict_get "desc" fs' = Some (JText [W "base"; W "image"]) /\
     forall k, k <> "desc" ->
               dict_get k fs' = dict_get k [("origin", JText [W "install"])]) /\
  (forall p, p <> meta_file 0 ->
     file_read p
       (snd (set_desc [I 0; W "base"; W "image"] example_disk fresh_base_world))
     = file_read p example_disk) /\
  set_desc [I 0; W "base"; W "image"]
    (snd (set_desc [I 0; W "base"; W "image"] example_disk fresh_base_world))
    fresh_base_world
  = set_desc [I 0; W "base"; W "image"] example_disk fresh_base_world.
Proof.
  apply (@set_desc_sets_the_description 0 (W "base") [W "image"] example_disk
           fresh_base_world [("origin", JText [W "install"])]); reflexivity.
Defined.

Lemma read_only_snapshots_take_no_files_witness :
  set_desc [I 2; W "test"] example_disk tree_world
  = ((Raise OSError, tree_world), example_disk) /\
  edit_conf all_succeed "nano" [I 2] example_disk tree_world
  = ((Raise OSError, tree_world), example_disk).
Proof.
  apply (@read_only_snapshots_take_no_files all_succeed "nano" 2 (W "test") []
           example_disk tree_world).
  reflexivity.
Defined.


Lemma edit_conf_creates_the_file_first_witness :
  fst (fst (edit_conf all_succeed "nano" [I 0] example_disk fresh_base_world))
  = Replaced /\
  file_read (conf_file 0)
    (snd (edit_conf all_succeed "nano" [I 0] example_disk fresh_base_world))
  = Some NotJson /\
  (forall p, p <> conf_file 0 ->
     file_read p
       (snd (edit_conf all_succeed "nano" [I 0] example_disk fresh_base_world))
     = file_read p example_disk) /\
  subvols (snd (fst (edit_conf all_succeed "nano" [I 0] example_disk
                       fresh_base_world)))
  = subvols fresh_base_world.
Proof.
  apply (@edit_conf_creates_the_file_first all_succeed "nano" 0 example_disk
           fresh_base_world).
  reflexivity.
Defined.

